(** * Intelligent Customer Data Platform: a shallow embedding of
    [src/cdp_platform.py] and the properties of its operations.

    Conventions of the embedding.
    - A Python [str] is a [string] holding its UTF-8 bytes, so [s.encode()]
      is the identity on the representation.
    - A [dict] keyed by strings is a [gmap string _]; the dict of the
      segmentation engine, which is created with one entry per enum member and
      never gains or loses a key, is a total function on [CustomerSegment].
    - A naive [datetime] is the number of microseconds since the start of the
      proleptic calendar, a [timedelta] a (signed) number of microseconds.
    - A Python [float] is the rational number it denotes; every arithmetic
      operation is the exact operation followed by a rounding function [rnd],
      about which only monotonicity and the exactness of [0] and [1] are ever
      assumed (infinities and NaN are not modelled).
    - No [async def] of the source contains an [await], so each coroutine runs
      to completion once awaited and is embedded as a function on the state of
      the object it is a method of.  Calls to [logger] are not modelled. *)

From Stdlib Require Import ZArith QArith Qminmax Lqa Ascii String List Lia.
From stdpp Require Import base gmap strings list fin_maps functions pretty.

Local Open Scope Z_scope.

(** ** [hashlib.md5]: RFC 1321 on 32-bit words carried by [Z] *)

Module MD5.

Definition mask32 : Z := 0xffffffff.

Definition add32 (x y : Z) : Z := (x + y) mod 2 ^ 32.

Definition not32 (x : Z) : Z := Z.lxor x mask32.

Definition rotl32 (x c : Z) : Z :=
  Z.lor (Z.land (Z.shiftl x c) mask32) (Z.shiftr x (32 - c)).

Definition shifts : list Z :=
  [ 7; 12; 17; 22;  7; 12; 17; 22;  7; 12; 17; 22;  7; 12; 17; 22;
    5;  9; 14; 20;  5;  9; 14; 20;  5;  9; 14; 20;  5;  9; 14; 20;
    4; 11; 16; 23;  4; 11; 16; 23;  4; 11; 16; 23;  4; 11; 16; 23;
    6; 10; 15; 21;  6; 10; 15; 21;  6; 10; 15; 21;  6; 10; 15; 21 ].

(** [sines !! i] is [floor (2^32 * abs (sin (i + 1)))]. *)
Definition sines : list Z :=
  [ 0xd76aa478; 0xe8c7b756; 0x242070db; 0xc1bdceee;
    0xf57c0faf; 0x4787c62a; 0xa8304613; 0xfd469501;
    0x698098d8; 0x8b44f7af; 0xffff5bb1; 0x895cd7be;
    0x6b901122; 0xfd987193; 0xa679438e; 0x49b40821;
    0xf61e2562; 0xc040b340; 0x265e5a51; 0xe9b6c7aa;
    0xd62f105d; 0x02441453; 0xd8a1e681; 0xe7d3fbc8;
    0x21e1cde6; 0xc33707d6; 0xf4d50d87; 0x455a14ed;
    0xa9e3e905; 0xfcefa3f8; 0x676f02d9; 0x8d2a4c8a;
    0xfffa3942; 0x8771f681; 0x6d9d6122; 0xfde5380c;
    0xa4beea44; 0x4bdecfa9; 0xf6bb4b60; 0xbebfbc70;
    0x289b7ec6; 0xeaa127fa; 0xd4ef3085; 0x04881d05;
    0xd9d4d039; 0xe6db99e5; 0x1fa27cf8; 0xc4ac5665;
    0xf4292244; 0x432aff97; 0xab9423a7; 0xfc93a039;
    0x655b59c3; 0x8f0ccc92; 0xffeff47d; 0x85845dd1;
    0x6fa87e4f; 0xfe2ce6e0; 0xa3014314; 0x4e0811a1;
    0xf7537e82; 0xbd3af235; 0x2ad7d2bb; 0xeb86d391 ].

Definition nthZ (l : list Z) (i : Z) : Z := nth (Z.to_nat i) l 0.

(** The message as bytes, the [0x80] marker, zero bytes up to 56 modulo 64,
    then the bit length as a 64-bit little-endian integer. *)
Definition le_bytes (n : nat) (x : Z) : list Z :=
  map (fun k : nat => Z.land (Z.shiftr x (8 * Z.of_nat k)) 0xff) (seq 0 n).

Definition pad (msg : list Z) : list Z :=
  let len := Z.of_nat (length msg) in
  let zeros := Z.to_nat ((55 - len) mod 64) in
  msg ++ [0x80] ++ repeat 0 zeros ++ le_bytes 8 ((8 * len) mod 2 ^ 64).

Fixpoint le_words (bs : list Z) : list Z :=
  match bs with
  | b0 :: b1 :: b2 :: b3 :: rest =>
      (b0 + Z.shiftl b1 8 + Z.shiftl b2 16 + Z.shiftl b3 24) :: le_words rest
  | _ => []
  end.

Record regs := Regs { rA : Z; rB : Z; rC : Z; rD : Z }.

Definition init : regs :=
  Regs 0x67452301 0xefcdab89 0x98badcfe 0x10325476.

Definition round (M : list Z) (r : regs) (i : Z) : regs :=
  let '(Regs A B C D) := r in
  let '(F, g) :=
    if i <? 16 then (Z.lor (Z.land B C) (Z.land (not32 B) D), i)
    else if i <? 32 then
      (Z.lor (Z.land D B) (Z.land (not32 D) C), (5 * i + 1) mod 16)
    else if i <? 48 then (Z.lxor B (Z.lxor C D), (3 * i + 5) mod 16)
    else (Z.lxor C (Z.lor B (not32 D)), (7 * i) mod 16) in
  let F' := add32 (add32 (add32 F A) (nthZ sines i)) (nthZ M g) in
  Regs D (add32 B (rotl32 F' (nthZ shifts i))) B C.

Definition block (r : regs) (M : list Z) : regs :=
  let r' := fold_left (round M) (map Z.of_nat (seq 0 64)) r in
  Regs (add32 (rA r) (rA r')) (add32 (rB r) (rB r'))
       (add32 (rC r) (rC r')) (add32 (rD r) (rD r')).

Fixpoint blocks (fuel : nat) (ws : list Z) (r : regs) : regs :=
  match fuel with
  | O => r
  | S fuel' => blocks fuel' (drop 16 ws) (block r (take 16 ws))
  end.

Definition digest (msg : list Z) : list Z :=
  let ws := le_words (pad msg) in
  let r := blocks (length ws / 16)%nat ws init in
  le_bytes 4 (rA r) ++ le_bytes 4 (rB r) ++ le_bytes 4 (rC r)
    ++ le_bytes 4 (rD r).

Definition hex_digit (d : Z) : ascii :=
  ascii_of_N (Z.to_N (if d <? 10 then 48 + d else 87 + d)).

Fixpoint hex (bs : list Z) : string :=
  match bs with
  | [] => EmptyString
  | b :: rest =>
      String (hex_digit (b / 16)) (String (hex_digit (b mod 16)) (hex rest))
  end.

Definition bytes_of (s : string) : list Z :=
  map (fun a => Z.of_N (N_of_ascii a)) (list_ascii_of_string s).

(** [hashlib.md5(s.encode()).hexdigest()] *)
Definition hexdigest (s : string) : string := hex (digest (bytes_of s)).

End MD5.

(** ** Values shared by the classes *)

(** A value of type [Any] held in an attribute or event dictionary. *)
Inductive pyval : Type :=
  | PyNone
  | PyBool (b : bool)
  | PyInt (z : Z)
  | PyFloat (q : Q)
  | PyStr (s : string).

(** [datetime] and [timedelta], both counted in microseconds. *)
Definition datetime : Type := Z.
Definition timedelta : Type := Z.

Definition microseconds_per_day : Z := 86400 * 1000000.

(** [timedelta(days=n)] *)
Definition timedelta_of_days (n : Z) : timedelta := n * microseconds_per_day.

(** [td.days]: a [timedelta] is normalised with [0 <= seconds < 86400] and
    [0 <= microseconds < 10**6], so [days] is the floor of the quotient. *)
Definition days (td : timedelta) : Z := td / microseconds_per_day.

(** [(datetime.now() - t).days] when the clock reads [now]. *)
Definition days_since (now t : datetime) : Z := days (now - t).

(** [x < y] on floats. *)
Definition float_lt (x y : Q) : bool := negb (Qle_bool y x).

(** What an awaited call or a call ends in.  Nothing in the source raises;
    the error kinds are those of the error taxonomy, so that statements about
    failing calls can be written down. *)
Inductive error : Type := NotFound | InvalidArgument | ConsistencyViolation.

Inductive outcome (A : Type) : Type :=
  | Returned (a : A)
  | Raised (e : error).
Arguments Returned {A} a.
Arguments Raised {A} e.

(** [class CustomerSegment(Enum)] *)
Inductive CustomerSegment : Type :=
  | HIGH_VALUE
  | AT_RISK
  | ACTIVE
  | DORMANT
  | NEW.

#[global] Instance CustomerSegment_eq_dec : EqDecision CustomerSegment.
Proof. solve_decision. Defined.

(** [s.value] *)
Definition value (s : CustomerSegment) : string :=
  match s with
  | HIGH_VALUE => "high_value"
  | AT_RISK => "at_risk"
  | ACTIVE => "active"
  | DORMANT => "dormant"
  | NEW => "new"
  end.

(** [@dataclass class Customer] *)
Module Customer.

Record t : Type := Build {
  id : string;
  email : string;
  name : string;
  attributes : gmap string pyval;
  events : list (gmap string pyval);
  segments : list CustomerSegment;
  lifetime_value : Q;
  last_activity : option datetime;
  created_at : datetime
}.

(** [customer.segments = l] *)
Definition set_segments (l : list CustomerSegment) (c : t) : t :=
  Build (id c) (email c) (name c) (attributes c) (events c) l
        (lifetime_value c) (last_activity c) (created_at c).

End Customer.

(** The dictionary returned by [get_360_view]: [{}] for an unknown id, the
    eight entries otherwise. *)
Inductive view360 : Type :=
  | EmptyView
  | View (id email name : string) (lifetime_value : Q)
         (segments : list string) (total_events : nat)
         (last_activity : option datetime) (attributes : gmap string pyval).

(** ** [class UnifiedProfileEngine] *)

Module UnifiedProfileEngine.

Record t : Type := Build {
  profiles : gmap string Customer.t;
  identity_graph : gmap string (gset string)
}.

(** [__init__] *)
Definition init : t := Build ∅ ∅.

Definition merge_identities (email user_id device_id : string) (self : t) : t :=
  let key := MD5.hexdigest email in
  let graph :=
    match identity_graph self !! key with
    | None => <[key := ∅]> (identity_graph self)
    | Some _ => identity_graph self
    end in
  let aliases : gset string := list_to_set [email; user_id; device_id] in
  Build (profiles self)
        (<[key := default ∅ (graph !! key) ∪ aliases]> graph).

Definition create_profile (customer : Customer.t) (self : t) : string * t :=
  (Customer.id customer,
   Build (<[Customer.id customer := customer]> (profiles self))
         (identity_graph self)).

Definition get_360_view (customer_id : string) (self : t) : view360 :=
  match profiles self !! customer_id with
  | None => EmptyView
  | Some customer =>
      View (Customer.id customer) (Customer.email customer)
           (Customer.name customer) (Customer.lifetime_value customer)
           (map value (Customer.segments customer))
           (length (Customer.events customer))
           (Customer.last_activity customer)
           (Customer.attributes customer)
  end.

End UnifiedProfileEngine.

(** ** [class RealtimeSegmentation] *)

Module RealtimeSegmentation.

Record t : Type := Build {
  segments : CustomerSegment -> list string
}.

(** [{s: [] for s in CustomerSegment}] *)
Definition init : t := Build (fun _ => []).

(** The rule lambdas.  Each one that looks at a timestamp reads the clock
    itself; [now] is what [datetime.now()] returns to it.  [x and y] with
    [x] an optional [datetime] is falsy when [x] is [None] and is [y]
    otherwise. *)
Definition rule_high_value (now : datetime) (c : Customer.t) : bool :=
  float_lt 10000 (Customer.lifetime_value c).

Definition rule_at_risk (now : datetime) (c : Customer.t) : bool :=
  match Customer.last_activity c with
  | Some t => 30 <? days_since now t
  | None => false
  end.

Definition rule_dormant (now : datetime) (c : Customer.t) : bool :=
  match Customer.last_activity c with
  | Some t => 90 <? days_since now t
  | None => false
  end.

Definition rule_new (now : datetime) (c : Customer.t) : bool :=
  days_since now (Customer.created_at c) <? 30.

Definition rule_active (now : datetime) (c : Customer.t) : bool :=
  match Customer.last_activity c with
  | Some t => days_since now t <? 7
  | None => false
  end.

(** [self.rules], in the insertion order that [items()] follows. *)
Definition rules : list (CustomerSegment * (datetime -> Customer.t -> bool)) :=
  [ (HIGH_VALUE, rule_high_value);
    (AT_RISK, rule_at_risk);
    (DORMANT, rule_dormant);
    (NEW, rule_new);
    (ACTIVE, rule_active) ].

(** [self.rules[s]] *)
Definition rule_of (s : CustomerSegment) : datetime -> Customer.t -> bool :=
  match s with
  | HIGH_VALUE => rule_high_value
  | AT_RISK => rule_at_risk
  | DORMANT => rule_dormant
  | NEW => rule_new
  | ACTIVE => rule_active
  end.

(** One iteration of the loop of [segment_customer]. *)
Definition segment_step (clock : CustomerSegment -> datetime)
    (st : Customer.t * t)
    (entry : CustomerSegment * (datetime -> Customer.t -> bool))
    : Customer.t * t :=
  let '(customer, self) := st in
  let '(segment, rule) := entry in
  if rule (clock segment) customer then
    let customer' :=
      Customer.set_segments (Customer.segments customer ++ [segment]) customer in
    if bool_decide (Customer.id customer ∈ segments self segment) then
      (customer', self)
    else
      (customer',
       Build (<[segment := segments self segment ++ [Customer.id customer]]>
                (segments self)))
  else (customer, self).

(** [clock s] is the reading of the wall clock that the rule of segment [s]
    obtains during this call.  The result is the customer object and the
    engine as the call leaves them. *)
Definition segment_customer (clock : CustomerSegment -> datetime)
    (customer : Customer.t) (self : t) : Customer.t * t :=
  fold_left (segment_step clock) rules
            (Customer.set_segments [] customer, self).

End RealtimeSegmentation.

(** ** Float arithmetic *)

(** What is assumed of the rounding of a float operation: it is monotone and
    leaves [0] and [1], which are floats, as they are. *)
Record rounding (rnd : Q -> Q) : Prop := {
  rnd_le : forall x y : Q, (x <= y)%Q -> (rnd x <= rnd y)%Q;
  rnd_0 : (rnd 0 == 0)%Q;
  rnd_1 : (rnd 1 == 1)%Q
}.

(** [x] is a float: rounding leaves it as it is. *)
Definition is_float (rnd : Q -> Q) (x : Q) : Prop := (rnd x == x)%Q.

(** Arithmetic without rounding error. *)
Definition exact_rnd (x : Q) : Q := x.

Section Floats.

Variable rnd : Q -> Q.

(** [float(n)] for an [int] operand of a float operation *)
Definition float_of_int (n : Z) : Q := rnd (inject_Z n).

Definition float_add (x y : Q) : Q := rnd (x + y).
Definition float_mul (x y : Q) : Q := rnd (x * y).
Definition float_div (x y : Q) : Q := rnd (x / y).

(** The literal [1.2], which is not a binary fraction. *)
Definition lit_1_2 : Q := rnd (12 # 10).

(** [min(x, y)] of two arguments: [y] when [y < x], else [x]. *)
Definition py_min (x y : Q) : Q := if float_lt y x then y else x.

End Floats.

(** ** [class PredictiveAnalytics] *)

Module PredictiveAnalytics.

Record t : Type := Build {
  predictions : gmap string (gmap string Q)
}.

Definition init : t := Build ∅.

Section Scores.

Variable rnd : Q -> Q.

(** The value bound to [score] when the clock reads [now]. *)
Definition churn_score (now : datetime) (customer : Customer.t) : Q :=
  match Customer.last_activity customer with
  | Some t =>
      let days_inactive := days_since now t in
      py_min 1 (float_div rnd (float_of_int rnd days_inactive) 90)
  | None => 0%Q
  end.

Definition predict_churn (now : datetime) (customer : Customer.t) (self : t)
    : Q * t :=
  let score := churn_score now customer in
  (score,
   Build (<[Customer.id customer := {["churn_risk"%string := score]}]>
            (predictions self))).

Definition predict_ltv (customer : Customer.t) (self : t) : Q * t :=
  let base_value := Customer.lifetime_value customer in
  let activity_multiplier :=
    float_add rnd 1
      (float_div rnd
         (float_of_int rnd (Z.of_nat (length (Customer.events customer)))) 100) in
  let predicted_ltv :=
    float_mul rnd (float_mul rnd base_value activity_multiplier) (lit_1_2 rnd) in
  let predictions' :=
    match predictions self !! Customer.id customer with
    | None => <[Customer.id customer := ∅]> (predictions self)
    | Some _ => predictions self
    end in
  (predicted_ltv,
   Build (<[Customer.id customer :=
              <["predicted_ltv"%string := predicted_ltv]>
                (default ∅ (predictions' !! Customer.id customer))]>
            predictions')).

End Scores.

End PredictiveAnalytics.

(** ** [class JourneyOrchestrator] *)

Module JourneyOrchestrator.

Record t : Type := Build {
  journeys : gmap string (list (gmap string pyval));
  active_journeys : gmap string string
}.

Definition init : t := Build ∅ ∅.

Definition define_journey (name : string) (stages : list (gmap string pyval))
    (self : t) : t :=
  Build (<[name := stages]> (journeys self)) (active_journeys self).

Definition enroll_customer (customer_id journey_name : string) (self : t)
    : outcome t :=
  match journeys self !! journey_name with
  | Some _ =>
      Returned (Build (journeys self)
                      (<[customer_id := journey_name]> (active_journeys self)))
  | None => Returned self
  end.

(** The body only reads the enrollment, to write it to the log. *)
Definition advance_journey (customer_id : string) (stage : Z) (self : t)
    : outcome t :=
  match active_journeys self !! customer_id with
  | Some journey => Returned self
  | None => Returned self
  end.

End JourneyOrchestrator.

(** ** [class PrivacyCompliance] *)

Module PrivacyCompliance.

(** [{'granted': ..., 'timestamp': ...}] *)
Record consent : Type := Consent {
  granted : bool;
  timestamp : datetime
}.

(** [{'customer_id': ..., 'processed_at': ...}] *)
Record deletion : Type := Deletion {
  customer_id : string;
  processed_at : datetime
}.

Record t : Type := Build {
  consent_records : gmap string (gmap string consent);
  deletion_requests : list deletion
}.

Definition init : t := Build ∅ [].

Definition record_consent (now : datetime) (customer_id purpose : string)
    (granted : bool) (self : t) : t :=
  let records :=
    match consent_records self !! customer_id with
    | None => <[customer_id := ∅]> (consent_records self)
    | Some _ => consent_records self
    end in
  Build (<[customer_id :=
             <[purpose := Consent granted now]>
               (default ∅ (records !! customer_id))]> records)
        (deletion_requests self).

(** [profiles] is the dict the caller hands over; the call deletes from that
    very dict, so the dict as the call leaves it is part of the result. *)
Definition process_deletion_request (now : datetime) (customer_id : string)
    (profiles : gmap string Customer.t) (self : t)
    : gmap string Customer.t * t :=
  match profiles !! customer_id with
  | Some _ =>
      (delete customer_id profiles,
       Build (consent_records self)
             (deletion_requests self ++ [Deletion customer_id now]))
  | None => (profiles, self)
  end.

End PrivacyCompliance.

(** ** [class IntelligentCDP] *)

Module IntelligentCDP.

Record t : Type := Build {
  profile_engine : UnifiedProfileEngine.t;
  segmentation : RealtimeSegmentation.t;
  predictive : PredictiveAnalytics.t;
  journey : JourneyOrchestrator.t;
  privacy : PrivacyCompliance.t
}.

Definition init : t :=
  Build UnifiedProfileEngine.init RealtimeSegmentation.init
        PredictiveAnalytics.init JourneyOrchestrator.init
        PrivacyCompliance.init.

(** [await cdp.privacy.process_deletion_request(customer_id,
    cdp.profile_engine.profiles)]: the erasure of a customer of the platform,
    the dict handed over being the one of its own profile engine. *)
Definition process_deletion_request (now : datetime) (customer_id : string)
    (cdp : t) : t :=
  let '(profiles', privacy') :=
    PrivacyCompliance.process_deletion_request now customer_id
      (UnifiedProfileEngine.profiles (profile_engine cdp)) (privacy cdp) in
  Build (UnifiedProfileEngine.Build profiles'
           (UnifiedProfileEngine.identity_graph (profile_engine cdp)))
        (segmentation cdp) (predictive cdp) (journey cdp) privacy'.

End IntelligentCDP.

(** ** The segmentation rules in the words of the specification *)

(** [d] is the time elapsed from [t] to [now], floored to whole days. *)
Definition whole_days_since (now t : datetime) (d : Z) : Prop :=
  d * microseconds_per_day <= now - t < (d + 1) * microseconds_per_day.

Definition spec_rule (s : CustomerSegment) (now : datetime) (c : Customer.t)
    : Prop :=
  match s with
  | HIGH_VALUE => (10000 < Customer.lifetime_value c)%Q
  | AT_RISK =>
      exists t d, Customer.last_activity c = Some t
                  /\ whole_days_since now t d /\ d > 30
  | DORMANT =>
      exists t d, Customer.last_activity c = Some t
                  /\ whole_days_since now t d /\ d > 90
  | NEW => exists d, whole_days_since now (Customer.created_at c) d /\ d < 30
  | ACTIVE =>
      exists t d, Customer.last_activity c = Some t
                  /\ whole_days_since now t d /\ d < 7
  end.

(** ** Auxiliary notions for the loop of [segment_customer] *)

(** The rule of the entry holds for [c] at the reading of its segment. *)
Definition holds (clock : CustomerSegment -> datetime) (c : Customer.t)
    (entry : CustomerSegment * (datetime -> Customer.t -> bool)) : bool :=
  entry.2 (clock entry.1) c.

(** Some entry of [rs] is for segment [s] and its rule holds for [c]. *)
Definition hit (clock : CustomerSegment -> datetime) (c : Customer.t)
    (rs : list (CustomerSegment * (datetime -> Customer.t -> bool)))
    (s : CustomerSegment) : bool :=
  existsb (fun entry => bool_decide (entry.1 = s) && holds clock c entry) rs.

(** The rule does not look at the segment list of the customer. *)
Definition ignores_segments (rule : datetime -> Customer.t -> bool) : Prop :=
  forall now l c, rule now (Customer.set_segments l c) = rule now c.

(** ** A platform with one customer, used in the examples below *)

(** 2026-11-03 00:00:00, and the same hour forty days later. *)
Definition t0 : datetime := timedelta_of_days 739922.
Definition t40 : datetime := t0 + timedelta_of_days 40.

(** A customer created and last active ten days before [t0]. *)
Definition cust0 : Customer.t :=
  Customer.Build "cust-0" "customer0@example.com" "Customer 0" ∅ [] []
    20000 (Some (t0 - timedelta_of_days 10)) (t0 - timedelta_of_days 10).

Definition onboarding : list (gmap string pyval) :=
  [ {[ "stage"%string := PyStr "welcome"; "action"%string := PyStr "send_email" ]};
    {[ "stage"%string := PyStr "tutorial"; "action"%string := PyStr "show_guide" ]};
    {[ "stage"%string := PyStr "first_purchase";
       "action"%string := PyStr "offer_discount" ]} ].

(** The state a returned call leaves, [d] if it raised. *)
Definition returned_or {A : Type} (d : A) (o : outcome A) : A :=
  match o with
  | Returned a => a
  | Raised _ => d
  end.

(** The orchestrator after [define_journey("onboarding", ...)] and
    [enroll_customer("cust-0", "onboarding")]. *)
Definition journey0 : JourneyOrchestrator.t :=
  let j :=
    JourneyOrchestrator.define_journey "onboarding" onboarding
      JourneyOrchestrator.init in
  returned_or j (JourneyOrchestrator.enroll_customer "cust-0" "onboarding" j).

(** The platform after the profile of [cust0] was created, segmented and
    scored at [t0] and the customer was enrolled in the onboarding journey. *)
Definition cdp0 : IntelligentCDP.t :=
  let seg :=
    RealtimeSegmentation.segment_customer (fun _ => t0) cust0
      RealtimeSegmentation.init in
  let p1 :=
    PredictiveAnalytics.predict_churn exact_rnd t0 seg.1
      PredictiveAnalytics.init in
  let p2 := PredictiveAnalytics.predict_ltv exact_rnd seg.1 p1.2 in
  IntelligentCDP.Build
    (UnifiedProfileEngine.create_profile seg.1 UnifiedProfileEngine.init).2
    seg.2 p2.2 journey0 PrivacyCompliance.init.

(** ** Sequences of calls on one platform *)

(** A call that a client makes on the components of an [IntelligentCDP].
    [segment_customer] assigns to a field of the customer object it is handed:
    [SegmentStored clock k] is the call on the object that the profile store
    holds under [k], whose assignment is therefore seen through the store, and
    [SegmentCustomer clock c] the call on an object that the store does not
    hold.  The scoring methods only read the customer.  The deletion request
    is handed the dict of the platform's own profile engine. *)
Inductive call : Type :=
  | MergeIdentities (email user_id device_id : string)
  | CreateProfile (customer : Customer.t)
  | SegmentStored (clock : CustomerSegment -> datetime) (customer_id : string)
  | SegmentCustomer (clock : CustomerSegment -> datetime) (customer : Customer.t)
  | PredictChurn (now : datetime) (customer : Customer.t)
  | PredictLtv (customer : Customer.t)
  | DefineJourney (name : string) (stages : list (gmap string pyval))
  | EnrollCustomer (customer_id journey_name : string)
  | AdvanceJourney (customer_id : string) (stage : Z)
  | RecordConsent (now : datetime) (customer_id purpose : string) (granted : bool)
  | ProcessDeletionRequest (now : datetime) (customer_id : string).

Section Calls.

Variable rnd : Q -> Q.

(** The platform after the call.  [SegmentStored] for an id without a profile
    stands for no call at all: the client has no object to hand over. *)
Definition exec (cdp : IntelligentCDP.t) (c : call) : IntelligentCDP.t :=
  let pe := IntelligentCDP.profile_engine cdp in
  let seg := IntelligentCDP.segmentation cdp in
  let pred := IntelligentCDP.predictive cdp in
  let jo := IntelligentCDP.journey cdp in
  let pc := IntelligentCDP.privacy cdp in
  match c with
  | MergeIdentities email user_id device_id =>
      IntelligentCDP.Build
        (UnifiedProfileEngine.merge_identities email user_id device_id pe)
        seg pred jo pc
  | CreateProfile customer =>
      IntelligentCDP.Build (UnifiedProfileEngine.create_profile customer pe).2
        seg pred jo pc
  | SegmentStored clock customer_id =>
      match UnifiedProfileEngine.profiles pe !! customer_id with
      | Some customer =>
          let r := RealtimeSegmentation.segment_customer clock customer seg in
          IntelligentCDP.Build
            (UnifiedProfileEngine.Build
               (<[customer_id := r.1]> (UnifiedProfileEngine.profiles pe))
               (UnifiedProfileEngine.identity_graph pe))
            r.2 pred jo pc
      | None => cdp
      end
  | SegmentCustomer clock customer =>
      IntelligentCDP.Build pe
        (RealtimeSegmentation.segment_customer clock customer seg).2 pred jo pc
  | PredictChurn now customer =>
      IntelligentCDP.Build pe seg
        (PredictiveAnalytics.predict_churn rnd now customer pred).2 jo pc
  | PredictLtv customer =>
      IntelligentCDP.Build pe seg
        (PredictiveAnalytics.predict_ltv rnd customer pred).2 jo pc
  | DefineJourney name stages =>
      IntelligentCDP.Build pe seg pred
        (JourneyOrchestrator.define_journey name stages jo) pc
  | EnrollCustomer customer_id journey_name =>
      IntelligentCDP.Build pe seg pred
        (returned_or jo
           (JourneyOrchestrator.enroll_customer customer_id journey_name jo)) pc
  | AdvanceJourney customer_id stage =>
      IntelligentCDP.Build pe seg pred
        (returned_or jo (JourneyOrchestrator.advance_journey customer_id stage jo))
        pc
  | RecordConsent now customer_id purpose granted =>
      IntelligentCDP.Build pe seg pred jo
        (PrivacyCompliance.record_consent now customer_id purpose granted pc)
  | ProcessDeletionRequest now customer_id =>
      IntelligentCDP.process_deletion_request now customer_id cdp
  end.

(** The platform after the calls of [cs], made one after the other. *)
Definition run (cs : list call) (cdp : IntelligentCDP.t) : IntelligentCDP.t :=
  fold_left exec cs cdp.

End Calls.

(** ** Invariants of the platform *)

(** Every profile is stored under the id it carries. *)
Definition profiles_keyed_by_id (cdp : IntelligentCDP.t) : Prop :=
  forall (k : string) (c : Customer.t),
    UnifiedProfileEngine.profiles (IntelligentCDP.profile_engine cdp) !! k = Some c ->
    Customer.id c = k.

(** Every key of the identity graph is the MD5 digest of one of the aliases
    it groups. *)
Definition keys_hash_an_alias (cdp : IntelligentCDP.t) : Prop :=
  forall (key : string) (aliases : gset string),
    UnifiedProfileEngine.identity_graph (IntelligentCDP.profile_engine cdp) !! key
    = Some aliases ->
    exists email : string, email ∈ aliases /\ MD5.hexdigest email = key.

(** No list of the segment index holds an id twice. *)
Definition index_without_duplicates (cdp : IntelligentCDP.t) : Prop :=
  forall s : CustomerSegment,
    NoDup (RealtimeSegmentation.segments (IntelligentCDP.segmentation cdp) s).

(** Every prediction record holds at least one metric and no entry other than
    the two metrics. *)
Definition records_hold_metrics (cdp : IntelligentCDP.t) : Prop :=
  forall (k : string) (record : gmap string Q),
    PredictiveAnalytics.predictions (IntelligentCDP.predictive cdp) !! k
    = Some record ->
    record <> ∅
    /\ forall metric : string, is_Some (record !! metric) ->
         metric = "churn_risk"%string \/ metric = "predicted_ltv"%string.

(** Every enrollment names a journey that is defined. *)
Definition enrollments_defined (cdp : IntelligentCDP.t) : Prop :=
  forall customer_id journey_name : string,
    JourneyOrchestrator.active_journeys (IntelligentCDP.journey cdp) !! customer_id
    = Some journey_name ->
    is_Some
      (JourneyOrchestrator.journeys (IntelligentCDP.journey cdp) !! journey_name).

(** A character of a lower-case hexadecimal numeral. *)
Definition is_hex_char (a : ascii) : bool :=
  let n := Z.of_N (N_of_ascii a) in
  ((48 <=? n) && (n <=? 57)) || ((97 <=? n) && (n <=? 102)).

(** ** [IntelligentCDP.demo] *)

(** [clock n] is what the [n]-th call of [datetime.now()] returns, counted
    from 0 at the start of [demo].  An iteration of the loop reads the clock
    seven times: for [last_activity], for the default of [created_at], in the
    rules of [AT_RISK], [DORMANT], [NEW] and [ACTIVE] (every customer of the
    demo has a [last_activity]), and in [predict_churn]. *)
Section Demo.

Variable rnd : Q -> Q.
Variable clock : nat -> datetime.

(** [Customer(id=f"cust-{i}", email=f"customer{i}@example.com",
    name=f"Customer {i}", lifetime_value=1000 + i * 100,
    last_activity=datetime.now() - timedelta(days=i % 60))] *)
Definition demo_customer (i : nat) : Customer.t :=
  Customer.Build ("cust-" +:+ pretty i)
    ("customer" +:+ pretty i +:+ "@example.com") ("Customer " +:+ pretty i)
    ∅ [] [] (inject_Z (1000 + Z.of_nat i * 100))
    (Some (clock (7 * i) - timedelta_of_days (Z.of_nat i mod 60)))
    (clock (7 * i + 1)).

(** The reading that the rule of a segment obtains in iteration [i]; the rule
    of [HIGH_VALUE] reads no clock. *)
Definition demo_clock (i : nat) (s : CustomerSegment) : datetime :=
  match s with
  | HIGH_VALUE | AT_RISK => clock (7 * i + 2)
  | DORMANT => clock (7 * i + 3)
  | NEW => clock (7 * i + 4)
  | ACTIVE => clock (7 * i + 5)
  end.

(** The body of the loop.  [customer] is one object throughout: the store
    holds it from [create_profile] on, so the assignment that
    [segment_customer] makes to its [segments] shows in the store, and the
    scoring calls are handed the object as that assignment left it. *)
Definition demo_step (cdp : IntelligentCDP.t) (i : nat) : IntelligentCDP.t :=
  let customer := demo_customer i in
  let pe :=
    (UnifiedProfileEngine.create_profile customer
       (IntelligentCDP.profile_engine cdp)).2 in
  let seg :=
    RealtimeSegmentation.segment_customer (demo_clock i) customer
      (IntelligentCDP.segmentation cdp) in
  let pe' :=
    UnifiedProfileEngine.Build
      (<[Customer.id customer := seg.1]> (UnifiedProfileEngine.profiles pe))
      (UnifiedProfileEngine.identity_graph pe) in
  let churn :=
    PredictiveAnalytics.predict_churn rnd (clock (7 * i + 6)) seg.1
      (IntelligentCDP.predictive cdp) in
  let ltv := PredictiveAnalytics.predict_ltv rnd seg.1 churn.2 in
  IntelligentCDP.Build pe' seg.2 ltv.2 (IntelligentCDP.journey cdp)
    (IntelligentCDP.privacy cdp).

(** The platform as [demo] leaves it. *)
Definition demo (self : IntelligentCDP.t) : IntelligentCDP.t :=
  let cdp := fold_left demo_step (seq 0 100) self in
  IntelligentCDP.Build (IntelligentCDP.profile_engine cdp)
    (IntelligentCDP.segmentation cdp) (IntelligentCDP.predictive cdp)
    (JourneyOrchestrator.define_journey "onboarding" onboarding
       (IntelligentCDP.journey cdp))
    (PrivacyCompliance.record_consent (clock 700) "cust-0" "marketing" true
       (IntelligentCDP.privacy cdp)).

End Demo.

(** The numbers that [demo] writes to the log: customers, the customers of
    each segment in the order of the enum, predictions, consent records. *)
Definition demo_report (cdp : IntelligentCDP.t) : list nat :=
  [ size (UnifiedProfileEngine.profiles (IntelligentCDP.profile_engine cdp)) ]
  ++ map (fun s =>
            length (RealtimeSegmentation.segments
                      (IntelligentCDP.segmentation cdp) s))
       [HIGH_VALUE; AT_RISK; ACTIVE; DORMANT; NEW]
  ++ [ size (PredictiveAnalytics.predictions (IntelligentCDP.predictive cdp));
       size (PrivacyCompliance.consent_records (IntelligentCDP.privacy cdp)) ].

(** The rule of segment [s] for the [i]-th customer of the demo, when the
    demo takes less than a day. *)
Definition demo_rule (s : CustomerSegment) (i : nat) : bool :=
  match s with
  | HIGH_VALUE => (90 <? i)%nat
  | AT_RISK => (30 <? i mod 60)%nat
  | DORMANT => false
  | NEW => true
  | ACTIVE => (i mod 60 <? 7)%nat
  end.

(** One list of the index through one iteration of the demo. *)
Definition demo_list_step (s : CustomerSegment) (l : list string) (i : nat)
    : list string :=
  if demo_rule s i && negb (bool_decide (("cust-" +:+ pretty i)%string ∈ l))
  then l ++ ["cust-" +:+ pretty i]%string else l.
(** ** Checks of the embedding on known values *)

Example md5_empty : MD5.hexdigest "" = "d41d8cd98f00b204e9800998ecf8427e"%string.
Proof. vm_compute. reflexivity. Qed.

Example md5_abc : MD5.hexdigest "abc" = "900150983cd24fb0d6963f7d28e17f72"%string.
Proof. vm_compute. reflexivity. Qed.

Example md5_two_blocks :
  MD5.hexdigest "xxxxxxxxxxxxxxxxxxxxxxxxxxxxxxxxxxxxxxxxxxxxxxxxxxxxxxxx"
  = "668a72d5ba17f08e62dabcafad6db14b"%string.
Proof. vm_compute. reflexivity. Qed.

Example cdp0_segments :
  Customer.segments
    (RealtimeSegmentation.segment_customer (fun _ => t0) cust0
       RealtimeSegmentation.init).1 = [HIGH_VALUE; NEW].
Proof. reflexivity. Qed.

(** ** The profile store *)

(** C10: [create_profile] is total, returns the id of the customer, leaves the
    customer stored under that id whatever was stored there before, and
    changes no entry under another id nor the identity graph. *)
Theorem create_profile_upsert (c : Customer.t) (self : UnifiedProfileEngine.t) :
  let r := UnifiedProfileEngine.create_profile c self in
  r.1 = Customer.id c
  /\ UnifiedProfileEngine.profiles r.2 !! Customer.id c = Some c
  /\ (forall k : string, k <> Customer.id c ->
        UnifiedProfileEngine.profiles r.2 !! k
        = UnifiedProfileEngine.profiles self !! k)
  /\ UnifiedProfileEngine.identity_graph r.2
     = UnifiedProfileEngine.identity_graph self.
Proof.
  cbn. repeat split.
  - apply lookup_insert_eq.
  - intros k Hk. apply lookup_insert_ne. congruence.
Qed.

(** ** Erasure *)

Lemma process_deletion_request_absent (now : datetime) (customer_id : string)
    (profiles : gmap string Customer.t) (self : PrivacyCompliance.t) :
  profiles !! customer_id = None ->
  PrivacyCompliance.process_deletion_request now customer_id profiles self
  = (profiles, self).
Proof.
  intros Habs. unfold PrivacyCompliance.process_deletion_request.
  now rewrite Habs.
Qed.

Lemma process_deletion_request_found (now : datetime) (customer_id : string)
    (profiles : gmap string Customer.t) (self : PrivacyCompliance.t)
    (c : Customer.t) :
  profiles !! customer_id = Some c ->
  PrivacyCompliance.process_deletion_request now customer_id profiles self
  = (delete customer_id profiles,
     PrivacyCompliance.Build (PrivacyCompliance.consent_records self)
       (PrivacyCompliance.deletion_requests self
          ++ [PrivacyCompliance.Deletion customer_id now])).
Proof.
  intros Hc. unfold PrivacyCompliance.process_deletion_request.
  now rewrite Hc.
Qed.

Lemma platform_deletion_absent (now : datetime) (customer_id : string)
    (cdp : IntelligentCDP.t) :
  UnifiedProfileEngine.profiles (IntelligentCDP.profile_engine cdp) !! customer_id
  = None ->
  IntelligentCDP.process_deletion_request now customer_id cdp = cdp.
Proof.
  intros Habs. unfold IntelligentCDP.process_deletion_request.
  rewrite (process_deletion_request_absent _ _ _ _ Habs).
  now destruct cdp as [[] ? ? ? ?].
Qed.

Lemma platform_deletion_found (now : datetime) (customer_id : string)
    (cdp : IntelligentCDP.t) (c : Customer.t) :
  UnifiedProfileEngine.profiles (IntelligentCDP.profile_engine cdp) !! customer_id
  = Some c ->
  IntelligentCDP.process_deletion_request now customer_id cdp
  = IntelligentCDP.Build
      (UnifiedProfileEngine.Build
         (delete customer_id
            (UnifiedProfileEngine.profiles (IntelligentCDP.profile_engine cdp)))
         (UnifiedProfileEngine.identity_graph (IntelligentCDP.profile_engine cdp)))
      (IntelligentCDP.segmentation cdp) (IntelligentCDP.predictive cdp)
      (IntelligentCDP.journey cdp)
      (PrivacyCompliance.Build
         (PrivacyCompliance.consent_records (IntelligentCDP.privacy cdp))
         (PrivacyCompliance.deletion_requests (IntelligentCDP.privacy cdp)
            ++ [PrivacyCompliance.Deletion customer_id now])).
Proof.
  intros Hc. unfold IntelligentCDP.process_deletion_request.
  now rewrite (process_deletion_request_found _ _ _ _ _ Hc).
Qed.

(** C1, as amended: the erasure of a customer who has a profile removes that
    profile and no other, appends exactly one deletion record carrying the id
    and the time of processing, and leaves the segment index, the prediction
    records, the journey enrollments, the consent records and the identity
    graph as they were; afterwards [get_360_view] of the id is the empty
    dict. *)
Theorem process_deletion_request_present (now : datetime) (customer_id : string)
    (cdp : IntelligentCDP.t) (c : Customer.t) :
  UnifiedProfileEngine.profiles (IntelligentCDP.profile_engine cdp) !! customer_id
  = Some c ->
  let cdp' := IntelligentCDP.process_deletion_request now customer_id cdp in
  let profiles' :=
    UnifiedProfileEngine.profiles (IntelligentCDP.profile_engine cdp') in
  profiles' !! customer_id = None
  /\ (forall k : string, k <> customer_id ->
        profiles' !! k
        = UnifiedProfileEngine.profiles (IntelligentCDP.profile_engine cdp) !! k)
  /\ PrivacyCompliance.deletion_requests (IntelligentCDP.privacy cdp')
     = PrivacyCompliance.deletion_requests (IntelligentCDP.privacy cdp)
         ++ [PrivacyCompliance.Deletion customer_id now]
  /\ PrivacyCompliance.consent_records (IntelligentCDP.privacy cdp')
     = PrivacyCompliance.consent_records (IntelligentCDP.privacy cdp)
  /\ IntelligentCDP.segmentation cdp' = IntelligentCDP.segmentation cdp
  /\ IntelligentCDP.predictive cdp' = IntelligentCDP.predictive cdp
  /\ IntelligentCDP.journey cdp' = IntelligentCDP.journey cdp
  /\ UnifiedProfileEngine.identity_graph (IntelligentCDP.profile_engine cdp')
     = UnifiedProfileEngine.identity_graph (IntelligentCDP.profile_engine cdp)
  /\ UnifiedProfileEngine.get_360_view customer_id
       (IntelligentCDP.profile_engine cdp') = EmptyView.
Proof.
  intros Hc. rewrite (platform_deletion_found _ _ _ _ Hc). cbn.
  repeat split.
  - apply lookup_delete_eq.
  - intros k Hk. apply lookup_delete_ne. congruence.
  - unfold UnifiedProfileEngine.get_360_view. cbn.
    now rewrite lookup_delete_eq.
Qed.

Lemma process_deletion_request_present_witness :
  let cdp' := IntelligentCDP.process_deletion_request t40 "cust-0" cdp0 in
  is_Some
    (UnifiedProfileEngine.profiles (IntelligentCDP.profile_engine cdp0)
       !! "cust-0"%string)
  /\ PrivacyCompliance.deletion_requests (IntelligentCDP.privacy cdp')
     = [PrivacyCompliance.Deletion "cust-0" t40]
  /\ UnifiedProfileEngine.get_360_view "cust-0"
       (IntelligentCDP.profile_engine cdp') = EmptyView.
Proof.
  assert (Hc : is_Some
    (UnifiedProfileEngine.profiles (IntelligentCDP.profile_engine cdp0)
       !! "cust-0"%string)) by (vm_compute; eauto).
  split; [exact Hc |].
  destruct Hc as [c Hc].
  destruct (process_deletion_request_present t40 "cust-0" cdp0 c Hc)
    as (_ & _ & Hlog & _ & _ & _ & _ & _ & Hview).
  split; [exact Hlog | exact Hview].
Defined.

(** C1, as stated, fails on [cdp0]: after the erasure of ["cust-0"], which has
    a profile, the id is still listed under [HIGH_VALUE] in the segment index,
    its prediction record is still there, and it is still enrolled. *)
Lemma process_deletion_request_no_cascade :
  let cdp' := IntelligentCDP.process_deletion_request t40 "cust-0" cdp0 in
  is_Some
    (UnifiedProfileEngine.profiles (IntelligentCDP.profile_engine cdp0)
       !! "cust-0"%string)
  /\ ~ (forall s : CustomerSegment,
          "cust-0"%string ∉
            RealtimeSegmentation.segments (IntelligentCDP.segmentation cdp') s)
  /\ is_Some
       (PredictiveAnalytics.predictions (IntelligentCDP.predictive cdp')
          !! "cust-0"%string)
  /\ JourneyOrchestrator.active_journeys (IntelligentCDP.journey cdp')
       !! "cust-0"%string = Some "onboarding"%string.
Proof.
  cbv zeta. repeat split.
  - vm_compute. eauto.
  - intros H. apply (H HIGH_VALUE). vm_compute. apply list_elem_of_here.
  - vm_compute. eauto.
Qed.

(** C9: a deletion request for an id that has no profile changes nothing, for
    the component and for the platform; a second request for the same id is
    therefore without effect, and two requests for an id that had a profile
    leave exactly one more deletion record than there was. *)
Theorem process_deletion_request_idempotent (now now' : datetime)
    (customer_id : string) (cdp : IntelligentCDP.t) :
  let once := IntelligentCDP.process_deletion_request now customer_id cdp in
  let twice := IntelligentCDP.process_deletion_request now' customer_id once in
  (UnifiedProfileEngine.profiles (IntelligentCDP.profile_engine cdp)
     !! customer_id = None -> once = cdp)
  /\ twice = once
  /\ (is_Some (UnifiedProfileEngine.profiles (IntelligentCDP.profile_engine cdp)
                 !! customer_id) ->
      PrivacyCompliance.deletion_requests (IntelligentCDP.privacy twice)
      = PrivacyCompliance.deletion_requests (IntelligentCDP.privacy cdp)
          ++ [PrivacyCompliance.Deletion customer_id now]).
Proof.
  assert (Hgone :
    UnifiedProfileEngine.profiles
      (IntelligentCDP.profile_engine
         (IntelligentCDP.process_deletion_request now customer_id cdp))
      !! customer_id = None).
  { destruct (UnifiedProfileEngine.profiles (IntelligentCDP.profile_engine cdp)
                !! customer_id) as [c|] eqn:Hc.
    - rewrite (platform_deletion_found _ _ _ _ Hc). cbn.
      apply lookup_delete_eq.
    - now rewrite (platform_deletion_absent _ _ _ Hc). }
  cbv zeta. split; [apply platform_deletion_absent |].
  split; [now apply platform_deletion_absent |].
  intros [c Hc]. rewrite (platform_deletion_absent now' _ _ Hgone).
  now rewrite (platform_deletion_found _ _ _ _ Hc).
Qed.

Lemma process_deletion_request_idempotent_witness :
  let once := IntelligentCDP.process_deletion_request t40 "cust-0" cdp0 in
  let twice := IntelligentCDP.process_deletion_request (t40 + 1) "cust-0" once in
  (IntelligentCDP.process_deletion_request t40 "cust-1" cdp0 = cdp0)
  /\ twice = once
  /\ PrivacyCompliance.deletion_requests (IntelligentCDP.privacy twice)
     = [PrivacyCompliance.Deletion "cust-0" t40].
Proof.
  destruct (process_deletion_request_idempotent t40 t40 "cust-1" cdp0)
    as (Habsent & _ & _).
  destruct (process_deletion_request_idempotent t40 (t40 + 1) "cust-0" cdp0)
    as (_ & Hsecond & Hlog).
  split; [apply Habsent; vm_compute; reflexivity |].
  split; [exact Hsecond |].
  apply Hlog. vm_compute. eauto.
Defined.

(** ** Journeys *)

(** C5, as amended: [advance_journey] returns normally and leaves the
    orchestrator, templates and enrollments alike, as it was, for every
    customer id and every stage, enrolled or not, in range or not. *)
Theorem advance_journey_returns (customer_id : string) (stage : Z)
    (self : JourneyOrchestrator.t) :
  JourneyOrchestrator.advance_journey customer_id stage self = Returned self.
Proof.
  unfold JourneyOrchestrator.advance_journey.
  now destruct (JourneyOrchestrator.active_journeys self !! customer_id).
Qed.

(** C5, as stated, fails on the three-stage onboarding journey: after
    [enroll_customer("c1", "onboarding")], [advance_journey("c1", 3)] leaves
    ["c1"] enrolled instead of completing the journey, the following
    [advance_journey("c1", 0)] does not raise [NotFound], an advance to stage
    7 does not raise [InvalidArgument], and an advance of ["c2"], who is not
    enrolled, does not raise [NotFound]. *)
Lemma advance_journey_never_completes :
  let j0 :=
    JourneyOrchestrator.define_journey "onboarding" onboarding
      JourneyOrchestrator.init in
  let j1 :=
    returned_or j0 (JourneyOrchestrator.enroll_customer "c1" "onboarding" j0) in
  let j2 := returned_or j1 (JourneyOrchestrator.advance_journey "c1" 3 j1) in
  length onboarding = 3%nat
  /\ JourneyOrchestrator.active_journeys j1 !! "c1"%string
     = Some "onboarding"%string
  /\ JourneyOrchestrator.active_journeys j2 !! "c1"%string
     = Some "onboarding"%string
  /\ JourneyOrchestrator.advance_journey "c1" 0 j2 <> Raised NotFound
  /\ JourneyOrchestrator.advance_journey "c1" 7 j1 <> Raised InvalidArgument
  /\ JourneyOrchestrator.active_journeys j1 !! "c2"%string = None
  /\ JourneyOrchestrator.advance_journey "c2" 0 j1 <> Raised NotFound.
Proof.
  cbv zeta. repeat split; try (vm_compute; reflexivity);
    vm_compute; discriminate.
Qed.

(** ** Prediction records *)

(** [predict_ltv] after [predict_churn]: both entries are in the record. *)
Lemma predict_ltv_keeps_churn_risk (rnd : Q -> Q) (now : datetime)
    (c : Customer.t) (self : PredictiveAnalytics.t) :
  let p1 := PredictiveAnalytics.predict_churn rnd now c self in
  let p2 := PredictiveAnalytics.predict_ltv rnd c p1.2 in
  PredictiveAnalytics.predictions p2.2 !! Customer.id c
  = Some (<["predicted_ltv"%string := p2.1]> {["churn_risk"%string := p1.1]}).
Proof.
  cbn. rewrite lookup_insert_eq. cbn. now rewrite !lookup_insert_eq.
Qed.

(** C6, at the failing order: [predict_churn] after [predict_ltv] leaves a
    record that holds the churn risk alone; the entry ['predicted_ltv'] that
    [predict_ltv] had written is gone. *)
Theorem predict_churn_drops_predicted_ltv (rnd : Q -> Q) (now : datetime)
    (c : Customer.t) (self : PredictiveAnalytics.t) :
  let p1 := PredictiveAnalytics.predict_ltv rnd c self in
  let p2 := PredictiveAnalytics.predict_churn rnd now c p1.2 in
  (exists record : gmap string Q,
     PredictiveAnalytics.predictions p1.2 !! Customer.id c = Some record
     /\ record !! "predicted_ltv"%string = Some p1.1)
  /\ PredictiveAnalytics.predictions p2.2 !! Customer.id c
     = Some {["churn_risk"%string := p2.1]}
  /\ ({["churn_risk"%string := p2.1]} : gmap string Q) !! "predicted_ltv"%string
     = None.
Proof.
  cbn. split; [| split].
  - eexists. split; [apply lookup_insert_eq |]. apply lookup_insert_eq.
  - apply lookup_insert_eq.
  - reflexivity.
Qed.

Example cust0_ltv_then_churn :
  let p1 := PredictiveAnalytics.predict_ltv exact_rnd cust0 PredictiveAnalytics.init in
  let p2 := PredictiveAnalytics.predict_churn exact_rnd t0 cust0 p1.2 in
  (p1.1 == 24000)%Q
  /\ (p2.1 == 1 # 9)%Q
  /\ PredictiveAnalytics.predictions p2.2 !! "cust-0"%string
     = Some {["churn_risk"%string := p2.1]}.
Proof. cbv zeta. repeat split. Qed.

(** ** Segmentation *)

Lemma whole_days_since_iff (now t : datetime) (d : Z) :
  whole_days_since now t d <-> d = days_since now t.
Proof.
  unfold whole_days_since, days_since, days, microseconds_per_day.
  pose proof (Z.div_mod (now - t) (86400 * 1000000) ltac:(lia)) as Hdm.
  pose proof (Z.mod_pos_bound (now - t) (86400 * 1000000) ltac:(lia)) as Hb.
  lia.
Qed.

Lemma float_lt_iff (x y : Q) : float_lt x y = true <-> (x < y)%Q.
Proof.
  unfold float_lt. rewrite negb_true_iff.
  split.
  - intros Hb. apply Qnot_le_lt. intros Hle.
    apply Qle_bool_iff in Hle. congruence.
  - intros Hlt. destruct (Qle_bool y x) eqn:Hb; [| reflexivity].
    apply Qle_bool_iff in Hb. exfalso. now apply (Qlt_not_le x y).
Qed.

(** The lambdas of the source decide the rules of the specification. *)
Lemma rule_of_spec (s : CustomerSegment) (now : datetime) (c : Customer.t) :
  RealtimeSegmentation.rule_of s now c = true <-> spec_rule s now c.
Proof.
  destruct s; cbn;
    unfold RealtimeSegmentation.rule_high_value, RealtimeSegmentation.rule_at_risk,
      RealtimeSegmentation.rule_dormant, RealtimeSegmentation.rule_new,
      RealtimeSegmentation.rule_active.
  - apply float_lt_iff.
  - destruct (Customer.last_activity c) as [t|].
    + rewrite Z.ltb_lt. split.
      * intros H. exists t, (days_since now t).
        rewrite whole_days_since_iff. repeat split; lia.
      * intros (t' & d & [= <-] & ->%whole_days_since_iff & H). lia.
    + split; [discriminate | intros (? & ? & [=] & _)].
  - destruct (Customer.last_activity c) as [t|].
    + rewrite Z.ltb_lt. split.
      * intros H. exists t, (days_since now t).
        rewrite whole_days_since_iff. repeat split; lia.
      * intros (t' & d & [= <-] & ->%whole_days_since_iff & H). lia.
    + split; [discriminate | intros (? & ? & [=] & _)].
  - destruct (Customer.last_activity c) as [t|].
    + rewrite Z.ltb_lt. split.
      * intros H. exists t, (days_since now t).
        rewrite whole_days_since_iff. repeat split; lia.
      * intros (t' & d & [= <-] & ->%whole_days_since_iff & H). lia.
    + split; [discriminate | intros (? & ? & [=] & _)].
  - rewrite Z.ltb_lt. split.
    + intros H. exists (days_since now (Customer.created_at c)).
      rewrite whole_days_since_iff. split; [reflexivity | lia].
    + intros (d & ->%whole_days_since_iff & H). lia.
Qed.

Lemma set_segments_set_segments (l l' : list CustomerSegment) (c : Customer.t) :
  Customer.set_segments l (Customer.set_segments l' c) = Customer.set_segments l c.
Proof. reflexivity. Qed.

Lemma filter_holds_ext (clock : CustomerSegment -> datetime)
    (l : list CustomerSegment) (c : Customer.t)
    (rs : list (CustomerSegment * (datetime -> Customer.t -> bool))) :
  Forall (fun entry => ignores_segments entry.2) rs ->
  List.filter (holds clock (Customer.set_segments l c)) rs
  = List.filter (holds clock c) rs.
Proof.
  intros Hrs. induction Hrs as [| entry rs Hentry _ IH]; [reflexivity |].
  cbn. rewrite IH.
  replace (holds clock (Customer.set_segments l c) entry)
    with (holds clock c entry) by (symmetry; apply Hentry).
  reflexivity.
Qed.

Lemma hit_ext (clock : CustomerSegment -> datetime)
    (l : list CustomerSegment) (c : Customer.t)
    (rs : list (CustomerSegment * (datetime -> Customer.t -> bool)))
    (s : CustomerSegment) :
  Forall (fun entry => ignores_segments entry.2) rs ->
  hit clock (Customer.set_segments l c) rs s = hit clock c rs s.
Proof.
  intros Hrs. unfold hit.
  induction Hrs as [| entry rs Hentry _ IH]; [reflexivity |].
  cbn. rewrite IH.
  replace (holds clock (Customer.set_segments l c) entry)
    with (holds clock c entry) by (symmetry; apply Hentry).
  reflexivity.
Qed.

(** The customer that the loop leaves: the segments of the entries whose rule
    holds are appended, in the order of the entries. *)
Lemma fold_segment_step_customer (clock : CustomerSegment -> datetime)
    (rs : list (CustomerSegment * (datetime -> Customer.t -> bool))) :
  Forall (fun entry => ignores_segments entry.2) rs ->
  forall (c : Customer.t) (self : RealtimeSegmentation.t),
    (fold_left (RealtimeSegmentation.segment_step clock) rs (c, self)).1
    = Customer.set_segments
        (Customer.segments c ++ map fst (List.filter (holds clock c) rs)) c.
Proof.
  intros Hrs. induction Hrs as [| [s rule] rs Hrule Hrs IH]; intros c self.
  - cbn. rewrite app_nil_r. now destruct c.
  - cbn [fold_left List.filter]. unfold holds at 1. cbn [fst snd].
    unfold RealtimeSegmentation.segment_step at 2.
    destruct (rule (clock s) c) eqn:Hr.
    + destruct (bool_decide _); rewrite IH, filter_holds_ext by exact Hrs;
        cbn; now rewrite <- app_assoc.
    + apply IH.
Qed.

(** The index that the loop leaves: the id is appended to the list of a
    segment when a rule for that segment holds and the id is not yet listed;
    every other list is as it was. *)
Lemma fold_segment_step_index (clock : CustomerSegment -> datetime)
    (rs : list (CustomerSegment * (datetime -> Customer.t -> bool)))
    (s : CustomerSegment) :
  Forall (fun entry => ignores_segments entry.2) rs ->
  forall (c : Customer.t) (self : RealtimeSegmentation.t),
    RealtimeSegmentation.segments
      (fold_left (RealtimeSegmentation.segment_step clock) rs (c, self)).2 s
    = if hit clock c rs s
         && negb (bool_decide
                    (Customer.id c ∈ RealtimeSegmentation.segments self s))
      then RealtimeSegmentation.segments self s ++ [Customer.id c]
      else RealtimeSegmentation.segments self s.
Proof.
  intros Hrs. induction Hrs as [| [s0 rule] rs Hrule Hrs IH]; intros c self.
  - reflexivity.
  - cbn [fold_left hit existsb]. unfold holds at 1. cbn [fst snd].
    unfold RealtimeSegmentation.segment_step at 2.
    destruct (rule (clock s0) c) eqn:Hr.
    + destruct (bool_decide (Customer.id c ∈ RealtimeSegmentation.segments self s0))
        eqn:Hin; rewrite IH, hit_ext by exact Hrs; cbn.
      * destruct (bool_decide (s0 = s)) eqn:Hs; [| reflexivity].
        apply bool_decide_eq_true in Hs. subst s0.
        rewrite Hin. cbn. now rewrite andb_false_r.
      * destruct (bool_decide (s0 = s)) eqn:Hs.
        -- apply bool_decide_eq_true in Hs. subst s0.
           rewrite fn_lookup_insert, Hin. cbn.
           rewrite (bool_decide_eq_true_2 _); [now rewrite andb_false_r |].
           apply elem_of_app. right. apply list_elem_of_here.
        -- apply bool_decide_eq_false in Hs.
           now rewrite fn_lookup_insert_ne by exact Hs.
    + rewrite andb_false_r. cbn. apply IH.
Qed.

Lemma rules_ignore_segments :
  Forall (fun entry => ignores_segments entry.2) RealtimeSegmentation.rules.
Proof. repeat constructor. Qed.

Lemma filter_rules (clock : CustomerSegment -> datetime) (c : Customer.t) :
  map fst (List.filter (holds clock c) RealtimeSegmentation.rules)
  = List.filter (fun s => RealtimeSegmentation.rule_of s (clock s) c)
      [HIGH_VALUE; AT_RISK; DORMANT; NEW; ACTIVE].
Proof.
  unfold RealtimeSegmentation.rules.
  cbn [List.filter holds fst snd RealtimeSegmentation.rule_of].
  destruct (RealtimeSegmentation.rule_high_value _ c),
    (RealtimeSegmentation.rule_at_risk _ c),
    (RealtimeSegmentation.rule_dormant _ c),
    (RealtimeSegmentation.rule_new _ c),
    (RealtimeSegmentation.rule_active _ c); reflexivity.
Qed.

Lemma hit_rules (clock : CustomerSegment -> datetime) (c : Customer.t)
    (s : CustomerSegment) :
  hit clock c RealtimeSegmentation.rules s
  = RealtimeSegmentation.rule_of s (clock s) c.
Proof.
  unfold RealtimeSegmentation.rules, hit.
  destruct s;
    cbn [existsb holds fst snd RealtimeSegmentation.rule_of];
    repeat match goal with
           | |- context [bool_decide (?a = ?b)] =>
               first [ rewrite (bool_decide_eq_true_2 (a = b)) by reflexivity
                     | rewrite (bool_decide_eq_false_2 (a = b)) by discriminate ]
           end;
    cbn [andb orb]; now rewrite ?orb_false_r.
Qed.

(** C2: [segment_customer] leaves in [customer.segments] exactly the segments
    whose rule, as the specification words it, holds for the customer at the
    clock reading of that rule: each of the five rules decides for itself,
    none is listed twice, no other field of the customer changes, and several
    segments may hold at once (a customer inactive for 110 days is both
    [AT_RISK] and [DORMANT]). *)
Theorem segment_customer_segments (clock : CustomerSegment -> datetime)
    (c : Customer.t) (self : RealtimeSegmentation.t) :
  let c' := (RealtimeSegmentation.segment_customer clock c self).1 in
  Customer.segments c'
  = List.filter (fun s => RealtimeSegmentation.rule_of s (clock s) c)
      [HIGH_VALUE; AT_RISK; DORMANT; NEW; ACTIVE]
  /\ (forall s : CustomerSegment,
        s ∈ Customer.segments c' <-> spec_rule s (clock s) c)
  /\ NoDup (Customer.segments c')
  /\ c' = Customer.set_segments (Customer.segments c') c
  /\ Customer.segments
       (RealtimeSegmentation.segment_customer
          (fun _ => t0 + timedelta_of_days 100) cust0 self).1
     = [HIGH_VALUE; AT_RISK; DORMANT].
Proof.
  cbv zeta. unfold RealtimeSegmentation.segment_customer.
  rewrite !fold_segment_step_customer by apply rules_ignore_segments.
  rewrite !filter_holds_ext by apply rules_ignore_segments.
  rewrite !filter_rules. cbn [Customer.segments Customer.set_segments app].
  split; [reflexivity |]. split; [| split; [| split]].
  - intros s. rewrite <- rule_of_spec, list_elem_of_In, filter_In.
    split; [tauto |]. intros Hs. split; [| exact Hs].
    destruct s; cbn; tauto.
  - apply NoDup_ListNoDup, List.NoDup_filter.
    repeat constructor; cbn; intuition discriminate.
  - reflexivity.
  - reflexivity.
Qed.

(** Appending an element unless it is listed already. *)
Lemma append_once_spec (b : bool) (x : string) (l : list string) :
  let l' := if b && negb (bool_decide (x ∈ l)) then l ++ [x] else l in
  (x ∈ l' <-> b = true \/ x ∈ l)
  /\ (forall k : string, k <> x -> (k ∈ l' <-> k ∈ l))
  /\ (NoDup l -> NoDup l').
Proof.
  cbv zeta. destruct b; cbn [andb]; [| split; [| split]].
  - destruct (bool_decide (x ∈ l)) eqn:Hin; cbn [negb].
    + apply bool_decide_eq_true in Hin. tauto.
    + apply bool_decide_eq_false in Hin. split; [| split].
      * split; [tauto |]. intros _. apply elem_of_app. right.
        apply list_elem_of_here.
      * intros k Hk. rewrite elem_of_app, list_elem_of_singleton. tauto.
      * intros Hnd. apply list.NoDup_app. split; [exact Hnd |].
        split; [| apply NoDup_singleton].
        intros y Hy ->%list_elem_of_singleton. contradiction.
  - split; [tauto |]. intros [Hf | Hx]; [discriminate | exact Hx].
  - tauto.
  - tauto.
Qed.

(** C3, as amended: after [segment_customer(c)] the list of a segment is the
    list before the call, with [c.id] appended when the rule of the segment
    holds and the id was not yet listed.  So [c.id] is listed exactly when
    the rule holds now or the id was listed before (membership from an
    earlier call is never removed), the other ids are listed as before, and
    a list without a duplicate stays without one. *)
Theorem segment_customer_index (clock : CustomerSegment -> datetime)
    (c : Customer.t) (self : RealtimeSegmentation.t) (s : CustomerSegment) :
  let before := RealtimeSegmentation.segments self s in
  let after :=
    RealtimeSegmentation.segments
      (RealtimeSegmentation.segment_customer clock c self).2 s in
  after = (if RealtimeSegmentation.rule_of s (clock s) c
              && negb (bool_decide (Customer.id c ∈ before))
           then before ++ [Customer.id c] else before)
  /\ (Customer.id c ∈ after <->
      spec_rule s (clock s) c \/ Customer.id c ∈ before)
  /\ (forall k : string, k <> Customer.id c -> (k ∈ after <-> k ∈ before))
  /\ (NoDup before -> NoDup after)
  /\ NoDup (RealtimeSegmentation.segments RealtimeSegmentation.init s).
Proof.
  cbv zeta. unfold RealtimeSegmentation.segment_customer.
  rewrite fold_segment_step_index by apply rules_ignore_segments.
  rewrite hit_ext by apply rules_ignore_segments.
  rewrite hit_rules. cbn [Customer.id Customer.set_segments].
  rewrite <- rule_of_spec.
  split; [reflexivity |].
  destruct (append_once_spec (RealtimeSegmentation.rule_of s (clock s) c)
              (Customer.id c) (RealtimeSegmentation.segments self s))
    as (Hid & Hother & Hnodup).
  repeat split; try apply Hid; try apply Hother; try assumption.
  cbn. apply NoDup_nil_2.
Qed.

(** C3, as stated, fails on [cust0]: segmented at [t0] the customer is [NEW]
    and enters the index under [NEW]; segmented again forty days later the
    rule no longer holds and [NEW] leaves [customer.segments], yet the id is
    still listed under [NEW]. *)
Lemma segment_customer_keeps_stale_membership :
  let r0 :=
    RealtimeSegmentation.segment_customer (fun _ => t0) cust0
      RealtimeSegmentation.init in
  let r1 :=
    RealtimeSegmentation.segment_customer (fun _ => t40) r0.1 r0.2 in
  Customer.segments r0.1 = [HIGH_VALUE; NEW]
  /\ Customer.segments r1.1 = [HIGH_VALUE; AT_RISK]
  /\ ~ spec_rule NEW t40 r0.1
  /\ Customer.id r0.1 ∈ RealtimeSegmentation.segments r1.2 NEW.
Proof.
  cbv zeta. split; [reflexivity |]. split; [reflexivity |]. split.
  - rewrite <- rule_of_spec. vm_compute. discriminate.
  - vm_compute. apply list_elem_of_here.
Qed.

(** ** Scores *)

Lemma exact_rnd_rounding : rounding exact_rnd.
Proof. split; unfold exact_rnd; [tauto | reflexivity | reflexivity]. Qed.

Lemma rnd_nonneg (rnd : Q -> Q) (x : Q) :
  rounding rnd -> (0 <= x)%Q -> (0 <= rnd x)%Q.
Proof.
  intros Hr Hx. apply Qle_trans with (rnd 0%Q).
  - rewrite (rnd_0 rnd Hr). apply Qle_refl.
  - now apply (rnd_le rnd Hr).
Qed.

Lemma rnd_ge_1 (rnd : Q -> Q) (x : Q) :
  rounding rnd -> (1 <= x)%Q -> (1 <= rnd x)%Q.
Proof.
  intros Hr Hx. apply Qle_trans with (rnd 1%Q).
  - rewrite (rnd_1 rnd Hr). apply Qle_refl.
  - now apply (rnd_le rnd Hr).
Qed.

(** [min] of the source is the lesser of its two arguments. *)
Lemma py_min_Qmin (x y : Q) : (py_min x y == Qmin x y)%Q.
Proof.
  unfold py_min. destruct (float_lt y x) eqn:Hlt.
  - apply float_lt_iff in Hlt. symmetry. apply Q.min_r. now apply Qlt_le_weak.
  - symmetry. apply Q.min_l. apply Qnot_lt_le. intros Hyx.
    apply float_lt_iff in Hyx. congruence.
Qed.

Lemma float_quotient_le (rnd : Q -> Q) (m n : Z) :
  rounding rnd -> m <= n ->
  (float_div rnd (float_of_int rnd m) 90 <= float_div rnd (float_of_int rnd n) 90)%Q.
Proof.
  intros Hr Hmn. unfold float_div, float_of_int.
  apply (rnd_le rnd Hr). apply Qmult_le_compat_r; [| discriminate].
  apply (rnd_le rnd Hr). now rewrite <- Zle_Qle.
Qed.

Lemma churn_score_le (rnd : Q -> Q) (now now' : datetime) (c c' : Customer.t)
    (t t' : datetime) :
  rounding rnd ->
  Customer.last_activity c = Some t ->
  Customer.last_activity c' = Some t' ->
  days_since now t <= days_since now' t' ->
  (PredictiveAnalytics.churn_score rnd now c
   <= PredictiveAnalytics.churn_score rnd now' c')%Q.
Proof.
  intros Hr Ht Ht' Hd. unfold PredictiveAnalytics.churn_score.
  rewrite Ht, Ht'. cbv zeta. rewrite !py_min_Qmin.
  apply Q.min_le_compat_l. now apply float_quotient_le.
Qed.

(** C7, as amended: [predict_churn] returns [min(1.0, days_inactive / 90.0)]
    when [last_activity] is present and [0.0] when it is absent; the result
    is at most 1, it is at least 0 whenever [last_activity] is absent or not
    later than the clock reading (a non-negative [days_inactive]), and it
    does not decrease when the number of days since the last activity
    grows. *)
Theorem predict_churn_score (rnd : Q -> Q) (now : datetime) (c : Customer.t)
    (self : PredictiveAnalytics.t) :
  rounding rnd ->
  let score := (PredictiveAnalytics.predict_churn rnd now c self).1 in
  (forall t : datetime, Customer.last_activity c = Some t ->
     score == Qmin 1 (float_div rnd (float_of_int rnd (days_since now t)) 90))%Q
  /\ (Customer.last_activity c = None -> score = 0%Q)
  /\ (score <= 1)%Q
  /\ ((Customer.last_activity c = None
       \/ exists t, Customer.last_activity c = Some t /\ 0 <= days_since now t) ->
      (0 <= score)%Q)
  /\ (forall (now' : datetime) (c' : Customer.t) (self' : PredictiveAnalytics.t)
        (t t' : datetime),
        Customer.last_activity c = Some t ->
        Customer.last_activity c' = Some t' ->
        days_since now t <= days_since now' t' ->
        (score <= (PredictiveAnalytics.predict_churn rnd now' c' self').1)%Q).
Proof.
  intros Hr. cbn. unfold PredictiveAnalytics.churn_score at 1 2 3 4.
  split; [| split; [| split; [| split]]].
  - intros t ->. cbv zeta. apply py_min_Qmin.
  - now intros ->.
  - destruct (Customer.last_activity c) as [t|]; [| discriminate].
    cbv zeta. rewrite py_min_Qmin. apply Q.le_min_l.
  - intros [-> | (t & -> & Hd)]; [apply Qle_refl |].
    cbv zeta. rewrite py_min_Qmin. apply Q.min_glb; [discriminate |].
    unfold float_div, float_of_int. apply (rnd_nonneg rnd _ Hr).
    apply Qmult_le_0_compat; [| discriminate].
    apply (rnd_nonneg rnd _ Hr). now rewrite <- (Zle_Qle 0).
  - intros now' c' _ t t' Ht Ht' Hd.
    now apply (churn_score_le rnd now now' c c' t t').
Qed.

Lemma predict_churn_score_witness :
  rounding exact_rnd
  /\ ((PredictiveAnalytics.predict_churn exact_rnd t0 cust0
         PredictiveAnalytics.init).1 <= 1)%Q.
Proof.
  split; [exact exact_rnd_rounding |].
  destruct (predict_churn_score exact_rnd t0 cust0 PredictiveAnalytics.init
              exact_rnd_rounding) as (_ & _ & Hle & _).
  exact Hle.
Defined.

(** C7, as stated, fails for a customer whose [last_activity] lies one day
    after the clock reading: [days_inactive] is [-1] and the score is
    [-1/90], below 0. *)
Lemma predict_churn_below_zero :
  let c :=
    Customer.Build "cust-1" "customer1@example.com" "Customer 1" ∅ [] []
      1100 (Some (t0 + timedelta_of_days 1)) (t0 - timedelta_of_days 10) in
  let score :=
    (PredictiveAnalytics.predict_churn exact_rnd t0 c
       PredictiveAnalytics.init).1 in
  days_since t0 (t0 + timedelta_of_days 1) = -1
  /\ (score == -1 # 90)%Q
  /\ ~ (0 <= score <= 1)%Q.
Proof.
  cbv zeta. split; [reflexivity |]. split; [reflexivity |].
  intros [H _]. vm_compute in H. now apply H.
Qed.

(** C8: for a customer whose lifetime value is a non-negative float,
    [predict_ltv] returns [lifetime_value * (1.0 + len(events) / 100.0) * 1.2]
    as the float operations compute it, which is at least the lifetime value;
    without rounding error the result is the product of the lifetime value,
    [1 + n/100] and [12/10], [n] being the number of events. *)
Theorem predict_ltv_at_least_lifetime_value (rnd : Q -> Q) (c : Customer.t)
    (self : PredictiveAnalytics.t) :
  rounding rnd ->
  is_float rnd (Customer.lifetime_value c) ->
  (0 <= Customer.lifetime_value c)%Q ->
  let n := Z.of_nat (length (Customer.events c)) in
  (PredictiveAnalytics.predict_ltv rnd c self).1
  = float_mul rnd
      (float_mul rnd (Customer.lifetime_value c)
         (float_add rnd 1 (float_div rnd (float_of_int rnd n) 100)))
      (lit_1_2 rnd)
  /\ (Customer.lifetime_value c
      <= (PredictiveAnalytics.predict_ltv rnd c self).1)%Q
  /\ ((PredictiveAnalytics.predict_ltv exact_rnd c self).1
      == Customer.lifetime_value c * (1 + inject_Z n / 100) * (12 # 10))%Q.
Proof.
  intros Hr Hfloat Hnonneg. cbv zeta. split; [reflexivity |].
  split; [| reflexivity].
  cbn. unfold float_mul, float_add, float_div, float_of_int, lit_1_2.
  set (lv := Customer.lifetime_value c) in *.
  set (q := rnd (rnd (inject_Z (Z.of_nat (length (Customer.events c)))) / 100)%Q).
  assert (Hq : (0 <= q)%Q).
  { apply (rnd_nonneg rnd _ Hr). apply Qmult_le_0_compat; [| discriminate].
    apply (rnd_nonneg rnd _ Hr). rewrite <- (Zle_Qle 0). lia. }
  assert (Hm : (1 <= rnd (1 + q))%Q) by (apply (rnd_ge_1 rnd _ Hr); lra).
  assert (Hk : (1 <= rnd (12 # 10))%Q)
    by (apply (rnd_ge_1 rnd _ Hr); discriminate).
  assert (Hx : (lv <= rnd (lv * rnd (1 + q)))%Q).
  { apply Qle_trans with (rnd lv).
    - unfold is_float in Hfloat. rewrite Hfloat. apply Qle_refl.
    - apply (rnd_le rnd Hr). nra. }
  apply Qle_trans with (rnd lv).
  - unfold is_float in Hfloat. rewrite Hfloat. apply Qle_refl.
  - apply (rnd_le rnd Hr). nra.
Qed.

Lemma predict_ltv_at_least_lifetime_value_witness :
  rounding exact_rnd
  /\ is_float exact_rnd (Customer.lifetime_value cust0)
  /\ (0 <= Customer.lifetime_value cust0)%Q
  /\ (Customer.lifetime_value cust0
      <= (PredictiveAnalytics.predict_ltv exact_rnd cust0
            PredictiveAnalytics.init).1)%Q.
Proof.
  assert (Hfloat : is_float exact_rnd (Customer.lifetime_value cust0))
    by reflexivity.
  assert (Hnonneg : (0 <= Customer.lifetime_value cust0)%Q) by discriminate.
  split; [exact exact_rnd_rounding |].
  split; [exact Hfloat |]. split; [exact Hnonneg |].
  destruct (predict_ltv_at_least_lifetime_value exact_rnd cust0
              PredictiveAnalytics.init exact_rnd_rounding Hfloat Hnonneg)
    as (_ & Hle & _).
  exact Hle.
Defined.

(** ** The identity graph *)

Example md5_email : MD5.hexdigest "a@x.com" = "743173788aa9166801df2e18f0e7ff24"%string.
Proof. vm_compute. reflexivity. Qed.

(** The graph after a merge: the three identifiers join what the key of the
    email held. *)
Lemma merge_identities_graph (email user_id device_id : string)
    (self : UnifiedProfileEngine.t) :
  let key := MD5.hexdigest email in
  let graph := UnifiedProfileEngine.identity_graph self in
  UnifiedProfileEngine.merge_identities email user_id device_id self
  = UnifiedProfileEngine.Build (UnifiedProfileEngine.profiles self)
      (<[key := default ∅ (graph !! key)
                  ∪ list_to_set [email; user_id; device_id]]> graph).
Proof.
  cbv zeta. unfold UnifiedProfileEngine.merge_identities. f_equal.
  destruct (UnifiedProfileEngine.identity_graph self !! MD5.hexdigest email)
    as [aliases|] eqn:Hkey.
  - now rewrite Hkey.
  - now rewrite lookup_insert_eq, insert_insert_eq.
Qed.

Lemma gset_union_swap (X A B : gset string) : X ∪ A ∪ B = X ∪ B ∪ A.
Proof.
  rewrite <- !(assoc_L (∪)). f_equal. apply (comm_L (∪)).
Qed.


(** C4, as amended: the key of a merge is the MD5 of its email argument and
    nothing else.  Two merges commute, so the graph does not depend on the
    order of the calls; two merges with the same email leave under the key of
    that email all that it held and the identifiers of both calls, so that
    merging [("a@x.com", "u1", "u1")] and then [("a@x.com", "u1", "d1")]
    yields the graph of the single merge [("a@x.com", "u1", "d1")], one key
    with the aliases ["a@x.com"], ["u1"] and ["d1"]; and two merges whose
    emails have different MD5 digests stay under two keys, each of which
    holds what it held and the three identifiers of its own call and no
    more, whether or not the calls share a user or device id. *)
Theorem merge_identities_commute (e1 u1 d1 e2 u2 d2 : string)
    (self : UnifiedProfileEngine.t) :
  let merge := UnifiedProfileEngine.merge_identities in
  merge e2 u2 d2 (merge e1 u1 d1 self) = merge e1 u1 d1 (merge e2 u2 d2 self)
  /\ UnifiedProfileEngine.identity_graph (merge e1 u2 d2 (merge e1 u1 d1 self))
       !! MD5.hexdigest e1
     = Some (default ∅ (UnifiedProfileEngine.identity_graph self
                          !! MD5.hexdigest e1)
               ∪ list_to_set [e1; u1; d1] ∪ list_to_set [e1; u2; d2])
  /\ merge "a@x.com" "u1" "d1"
       (merge "a@x.com" "u1" "u1" UnifiedProfileEngine.init)
     = merge "a@x.com" "u1" "d1" UnifiedProfileEngine.init
  /\ UnifiedProfileEngine.identity_graph
       (merge "a@x.com" "u1" "d1" UnifiedProfileEngine.init)
     = {[ "743173788aa9166801df2e18f0e7ff24"%string
          := {[ "a@x.com"%string; "u1"%string; "d1"%string ]} ]}
  /\ (MD5.hexdigest e1 <> MD5.hexdigest e2 ->
      let graph :=
        UnifiedProfileEngine.identity_graph
          (merge e2 u2 d2 (merge e1 u1 d1 self)) in
      graph !! MD5.hexdigest e1
      = Some (default ∅ (UnifiedProfileEngine.identity_graph self
                           !! MD5.hexdigest e1)
                ∪ list_to_set [e1; u1; d1])
      /\ graph !! MD5.hexdigest e2
         = Some (default ∅ (UnifiedProfileEngine.identity_graph self
                              !! MD5.hexdigest e2)
                   ∪ list_to_set [e2; u2; d2])).
Proof.
  cbv zeta. split; [| split; [| split; [| split]]].
  - rewrite !merge_identities_graph.
    cbn [UnifiedProfileEngine.identity_graph UnifiedProfileEngine.profiles].
    f_equal.
    destruct (decide (MD5.hexdigest e1 = MD5.hexdigest e2)) as [Heq | Hne].
    + rewrite Heq, !lookup_insert_eq, !insert_insert_eq.
      cbv beta iota delta [default from_option id].
      now rewrite gset_union_swap.
    + rewrite !lookup_insert_ne by congruence.
      now apply insert_insert_ne.
  - rewrite !merge_identities_graph.
    cbn [UnifiedProfileEngine.identity_graph UnifiedProfileEngine.profiles].
    now rewrite !lookup_insert_eq.
  - vm_compute. reflexivity.
  - vm_compute. reflexivity.
  - intros Hne. rewrite !merge_identities_graph.
    cbn [UnifiedProfileEngine.identity_graph UnifiedProfileEngine.profiles].
    split.
    + rewrite lookup_insert_ne by congruence. apply lookup_insert_eq.
    + rewrite lookup_insert_eq. rewrite lookup_insert_ne by exact Hne.
      reflexivity.
Qed.

Lemma merge_identities_commute_witness :
  let merge := UnifiedProfileEngine.merge_identities in
  let graph :=
    UnifiedProfileEngine.identity_graph
      (merge "b@x.com" "u1" "d1"
         (merge "a@x.com" "u1" "d0" UnifiedProfileEngine.init)) in
  MD5.hexdigest "a@x.com" <> MD5.hexdigest "b@x.com"
  /\ graph !! MD5.hexdigest "a@x.com"
     = Some (∅ ∪ list_to_set ["a@x.com"; "u1"; "d0"]%string)
  /\ graph !! MD5.hexdigest "b@x.com"
     = Some (∅ ∪ list_to_set ["b@x.com"; "u1"; "d1"]%string).
Proof.
  assert (Hne : MD5.hexdigest "a@x.com" <> MD5.hexdigest "b@x.com")
    by (vm_compute; discriminate).
  split; [exact Hne |].
  destruct (merge_identities_commute "a@x.com" "u1" "d0" "b@x.com" "u1" "d1"
              UnifiedProfileEngine.init) as (_ & _ & _ & _ & Hapart).
  exact (Hapart Hne).
Defined.

(** C4, as stated, fails: the alias sets [{"a@x.com", "u1"}] and
    [{"u1", "d1"}], merged one after the other with the first identifier
    of each as the email, end under two keys, neither of which holds the
    three aliases, whereas the merge of the three identifiers at once gives
    one key; and so it is when the missing identifier is passed as the empty
    string. *)
Lemma merge_identities_keeps_keys_apart :
  let merge := UnifiedProfileEngine.merge_identities in
  let direct :=
    UnifiedProfileEngine.identity_graph
      (merge "a@x.com" "u1" "d1" UnifiedProfileEngine.init) in
  let stepwise :=
    UnifiedProfileEngine.identity_graph
      (merge "u1" "u1" "d1"
         (merge "a@x.com" "u1" "u1" UnifiedProfileEngine.init)) in
  let stepwise' :=
    UnifiedProfileEngine.identity_graph
      (merge "" "u1" "d1" (merge "a@x.com" "u1" "" UnifiedProfileEngine.init)) in
  stepwise
  = {[ "743173788aa9166801df2e18f0e7ff24"%string
       := {[ "a@x.com"%string; "u1"%string ]};
       "e4774cdda0793f86414e8b9140bb6db4"%string
       := {[ "u1"%string; "d1"%string ]} ]}
  /\ stepwise'
     = {[ "743173788aa9166801df2e18f0e7ff24"%string
          := {[ "a@x.com"%string; "u1"%string; ""%string ]};
          "d41d8cd98f00b204e9800998ecf8427e"%string
          := {[ ""%string; "u1"%string; "d1"%string ]} ]}
  /\ size direct = 1%nat /\ size stepwise = 2%nat /\ size stepwise' = 2%nat
  /\ stepwise <> direct /\ stepwise' <> direct.
Proof.
  cbv zeta. repeat split; try (vm_compute; reflexivity).
  - intros H. apply (f_equal size) in H. vm_compute in H. discriminate.
  - intros H. apply (f_equal size) in H. vm_compute in H. discriminate.
Qed.

(** ** Further properties of the profile engine *)

(** X1: a profile that was created is what [get_360_view] shows under its id,
    field by field; the views of the other ids are as before; and the view is
    the empty dict exactly for the ids that have no profile. *)
Theorem get_360_view_create_profile (c : Customer.t)
    (self : UnifiedProfileEngine.t) :
  let self' := (UnifiedProfileEngine.create_profile c self).2 in
  UnifiedProfileEngine.get_360_view (Customer.id c) self'
  = View (Customer.id c) (Customer.email c) (Customer.name c)
      (Customer.lifetime_value c) (map value (Customer.segments c))
      (length (Customer.events c)) (Customer.last_activity c)
      (Customer.attributes c)
  /\ (forall k : string, k <> Customer.id c ->
        UnifiedProfileEngine.get_360_view k self'
        = UnifiedProfileEngine.get_360_view k self)
  /\ (forall k : string,
        UnifiedProfileEngine.get_360_view k self = EmptyView
        <-> UnifiedProfileEngine.profiles self !! k = None).
Proof.
  cbv zeta. unfold UnifiedProfileEngine.get_360_view. cbn.
  split; [| split].
  - now rewrite lookup_insert_eq.
  - intros k Hk. rewrite lookup_insert_ne by congruence. reflexivity.
  - intros k. destruct (UnifiedProfileEngine.profiles self !! k); split;
      congruence.
Qed.

(** X2: a merge never drops an alias: every key keeps the aliases it had, the
    key of the email holds the three identifiers afterwards, every other key
    is as it was, the profiles are untouched, and the same merge made again
    changes nothing. *)
Theorem merge_identities_keeps_aliases (email user_id device_id : string)
    (self : UnifiedProfileEngine.t) :
  let self' :=
    UnifiedProfileEngine.merge_identities email user_id device_id self in
  (forall (key : string) (aliases : gset string),
     UnifiedProfileEngine.identity_graph self !! key = Some aliases ->
     exists aliases' : gset string,
       UnifiedProfileEngine.identity_graph self' !! key = Some aliases'
       /\ aliases ⊆ aliases')
  /\ (exists aliases' : gset string,
        UnifiedProfileEngine.identity_graph self' !! MD5.hexdigest email
        = Some aliases'
        /\ email ∈ aliases' /\ user_id ∈ aliases' /\ device_id ∈ aliases')
  /\ (forall key : string, key <> MD5.hexdigest email ->
        UnifiedProfileEngine.identity_graph self' !! key
        = UnifiedProfileEngine.identity_graph self !! key)
  /\ UnifiedProfileEngine.profiles self' = UnifiedProfileEngine.profiles self
  /\ UnifiedProfileEngine.merge_identities email user_id device_id self' = self'.
Proof.
  cbv zeta. rewrite !merge_identities_graph.
  cbn [UnifiedProfileEngine.identity_graph UnifiedProfileEngine.profiles].
  split; [| split; [| split; [| split]]].
  - intros key aliases Hkey.
    destruct (decide (MD5.hexdigest email = key)) as [<- | Hne].
    + rewrite lookup_insert_eq, Hkey. eexists. split; [reflexivity |].
      cbn [default from_option]. apply union_subseteq_l.
    + rewrite lookup_insert_ne by exact Hne. exists aliases. split; [exact Hkey |].
      reflexivity.
  - rewrite lookup_insert_eq. eexists. split; [reflexivity |].
    rewrite !elem_of_union, !elem_of_list_to_set, !elem_of_cons. tauto.
  - intros key Hne. apply lookup_insert_ne. congruence.
  - reflexivity.
  - f_equal. rewrite lookup_insert_eq, insert_insert_eq.
    cbv beta iota delta [default from_option id]. f_equal.
    rewrite <- (assoc_L (∪)). f_equal. apply (idemp_L (∪)).
Qed.

Lemma le_bytes_length (n : nat) (x : Z) : length (MD5.le_bytes n x) = n.
Proof. unfold MD5.le_bytes. now rewrite length_map, length_seq. Qed.

Lemma le_bytes_range (n : nat) (x : Z) :
  Forall (fun b => 0 <= b < 256) (MD5.le_bytes n x).
Proof.
  unfold MD5.le_bytes. apply Forall_map, Forall_forall. intros k _. cbn beta.
  change 0xff with (Z.ones 8). rewrite Z.land_ones by lia.
  apply Z.mod_pos_bound. lia.
Qed.

Lemma hex_length (bs : list Z) : String.length (MD5.hex bs) = (2 * length bs)%nat.
Proof. induction bs as [| b bs IH]; cbn; [reflexivity | rewrite IH; lia]. Qed.

Lemma hex_digit_is_hex_char (d : Z) :
  0 <= d < 16 -> is_hex_char (MD5.hex_digit d) = true.
Proof.
  intros Hd.
  assert (Hcases : d = 0 \/ d = 1 \/ d = 2 \/ d = 3 \/ d = 4 \/ d = 5 \/ d = 6
                   \/ d = 7 \/ d = 8 \/ d = 9 \/ d = 10 \/ d = 11 \/ d = 12
                   \/ d = 13 \/ d = 14 \/ d = 15) by lia.
  repeat (destruct Hcases as [-> | Hcases]; [reflexivity |]).
  now subst d.
Qed.

Lemma hex_chars (bs : list Z) :
  Forall (fun b => 0 <= b < 256) bs ->
  forallb is_hex_char (list_ascii_of_string (MD5.hex bs)) = true.
Proof.
  induction 1 as [| b bs Hb _ IH]; [reflexivity |].
  cbn [MD5.hex list_ascii_of_string forallb]. rewrite IH, andb_true_r.
  rewrite !hex_digit_is_hex_char; [reflexivity | |].
  - apply Z.mod_pos_bound. lia.
  - split; [apply Z.div_pos; lia | apply Z.div_lt_upper_bound; lia].
Qed.

Lemma pad_length (msg : list Z) : (length (MD5.pad msg) mod 64 = 0)%nat.
Proof.
  unfold MD5.pad. cbv zeta.
  rewrite !length_app, repeat_length, le_bytes_length. cbn [length].
  set (len := length msg).
  assert (Hz : Z.of_nat (len + (1 + (Z.to_nat ((55 - Z.of_nat len) mod 64) + 8)))
               mod 64 = 0).
  { pose proof (Z.mod_pos_bound (55 - Z.of_nat len) 64 ltac:(lia)) as Hb.
    rewrite !Nat2Z.inj_add, Z2Nat.id by lia.
    replace (Z.of_nat len + (Z.of_nat 1 + ((55 - Z.of_nat len) mod 64 + Z.of_nat 8)))
      with ((55 - Z.of_nat len) mod 64 + (Z.of_nat len + 9)) by lia.
    rewrite Zplus_mod_idemp_l.
    replace (55 - Z.of_nat len + (Z.of_nat len + 9)) with (1 * 64) by lia.
    apply Z_mod_mult. }
  apply Nat2Z.inj. rewrite Nat2Z.inj_mod. exact Hz.
Qed.

(** X3: whatever the string, the message that [md5] hashes is padded to whole
    blocks of 64 bytes, and the digest in hexadecimal is 32 characters long,
    each a digit or a letter from [a] to [f]; such are the keys of the
    identity graph. *)
Theorem hexdigest_format (s : string) :
  (length (MD5.pad (MD5.bytes_of s)) mod 64 = 0)%nat
  /\ String.length (MD5.hexdigest s) = 32%nat
  /\ forallb is_hex_char (list_ascii_of_string (MD5.hexdigest s)) = true.
Proof.
  split; [apply pad_length |]. unfold MD5.hexdigest, MD5.digest. cbv zeta. split.
  - rewrite hex_length, !length_app, !le_bytes_length. reflexivity.
  - apply hex_chars. rewrite !Forall_app. repeat split; apply le_bytes_range.
Qed.

(** ** Further properties of the segmentation engine *)

Lemma rule_of_ignores_segments (s : CustomerSegment) :
  ignores_segments (RealtimeSegmentation.rule_of s).
Proof. now destruct s. Qed.

Lemma segment_customer_customer (clock : CustomerSegment -> datetime)
    (c : Customer.t) (self : RealtimeSegmentation.t) :
  (RealtimeSegmentation.segment_customer clock c self).1
  = Customer.set_segments
      (List.filter (fun s => RealtimeSegmentation.rule_of s (clock s) c)
         [HIGH_VALUE; AT_RISK; DORMANT; NEW; ACTIVE]) c.
Proof.
  unfold RealtimeSegmentation.segment_customer.
  rewrite fold_segment_step_customer by apply rules_ignore_segments.
  rewrite filter_holds_ext by apply rules_ignore_segments.
  now rewrite filter_rules.
Qed.

Lemma segment_customer_lists (clock : CustomerSegment -> datetime)
    (c : Customer.t) (self : RealtimeSegmentation.t) (s : CustomerSegment) :
  RealtimeSegmentation.segments
    (RealtimeSegmentation.segment_customer clock c self).2 s
  = if RealtimeSegmentation.rule_of s (clock s) c
       && negb (bool_decide
                  (Customer.id c ∈ RealtimeSegmentation.segments self s))
    then RealtimeSegmentation.segments self s ++ [Customer.id c]
    else RealtimeSegmentation.segments self s.
Proof.
  unfold RealtimeSegmentation.segment_customer.
  rewrite fold_segment_step_index by apply rules_ignore_segments.
  rewrite hit_ext by apply rules_ignore_segments.
  now rewrite hit_rules.
Qed.

Lemma elem_of_segment_customer (clock : CustomerSegment -> datetime)
    (c : Customer.t) (self : RealtimeSegmentation.t) (s : CustomerSegment) :
  s ∈ Customer.segments (RealtimeSegmentation.segment_customer clock c self).1
  <-> RealtimeSegmentation.rule_of s (clock s) c = true.
Proof.
  rewrite segment_customer_customer. cbn [Customer.segments Customer.set_segments].
  rewrite list_elem_of_In, filter_In. split; [tauto |].
  intros Hs. split; [| exact Hs]. destruct s; cbn; tauto.
Qed.

Lemma filter_sublist {A : Type} (f : A -> bool) (l : list A) :
  sublist (List.filter f l) l.
Proof.
  induction l as [| x l IH]; cbn; [constructor |].
  destruct (f x); now constructor.
Qed.

(** X4: [segment_customer] starts from an empty segment list, so what the
    customer was tagged with before has no influence on the outcome; and a
    second call at the same clock readings changes neither the customer nor
    any list of the index. *)
Theorem segment_customer_idempotent (clock : CustomerSegment -> datetime)
    (c : Customer.t) (self : RealtimeSegmentation.t)
    (l : list CustomerSegment) :
  let r := RealtimeSegmentation.segment_customer clock c self in
  let r' := RealtimeSegmentation.segment_customer clock r.1 r.2 in
  RealtimeSegmentation.segment_customer clock (Customer.set_segments l c) self = r
  /\ r'.1 = r.1
  /\ forall s : CustomerSegment,
       RealtimeSegmentation.segments r'.2 s = RealtimeSegmentation.segments r.2 s.
Proof.
  cbv zeta. split; [reflexivity |]. split.
  - rewrite !segment_customer_customer. cbn [Customer.set_segments].
    f_equal; try (apply filter_ext; intros s; apply rule_of_ignores_segments).
  - intros s.
    pose proof (segment_customer_customer clock c self) as Hc.
    pose proof (segment_customer_lists clock c self s) as Hl.
    destruct (RealtimeSegmentation.segment_customer clock c self) as [c1 idx1].
    cbn [fst snd] in *. subst c1.
    rewrite segment_customer_lists, rule_of_ignores_segments.
    cbn [Customer.id Customer.set_segments].
    destruct (RealtimeSegmentation.rule_of s (clock s) c); [| reflexivity].
    cbn [andb] in *.
    rewrite (bool_decide_eq_true_2 _); [reflexivity |]. rewrite Hl.
    destruct (bool_decide (Customer.id c ∈ RealtimeSegmentation.segments self s))
      eqn:Hin; cbn [negb].
    + now apply bool_decide_eq_true in Hin.
    + apply elem_of_app. right. apply list_elem_of_here.
Qed.

(** X5: after [segment_customer] the index lists the customer under every
    segment that the call put in [customer.segments], and those segments come
    in the order HIGH_VALUE, AT_RISK, DORMANT, NEW, ACTIVE. *)
Theorem segment_customer_consistent (clock : CustomerSegment -> datetime)
    (c : Customer.t) (self : RealtimeSegmentation.t) :
  let r := RealtimeSegmentation.segment_customer clock c self in
  (forall s : CustomerSegment,
     s ∈ Customer.segments r.1 ->
     Customer.id c ∈ RealtimeSegmentation.segments r.2 s)
  /\ sublist (Customer.segments r.1) [HIGH_VALUE; AT_RISK; DORMANT; NEW; ACTIVE].
Proof.
  cbv zeta. split.
  - intros s Hs%elem_of_segment_customer.
    rewrite segment_customer_lists, Hs. cbn [andb].
    destruct (bool_decide (Customer.id c ∈ RealtimeSegmentation.segments self s))
      eqn:Hin; cbn [negb].
    + now apply bool_decide_eq_true in Hin.
    + apply elem_of_app. right. apply list_elem_of_here.
  - rewrite segment_customer_customer. apply filter_sublist.
Qed.

(** X6: when all rules read the same instant, a [DORMANT] customer is also
    [AT_RISK], an [ACTIVE] customer is neither [AT_RISK] nor [DORMANT], and a
    customer without [last_activity] can only be [HIGH_VALUE] or [NEW]. *)
Theorem segments_at_one_instant (now : datetime) (c : Customer.t)
    (self : RealtimeSegmentation.t) :
  let segs :=
    Customer.segments
      (RealtimeSegmentation.segment_customer (fun _ => now) c self).1 in
  (DORMANT ∈ segs -> AT_RISK ∈ segs)
  /\ (ACTIVE ∈ segs -> (AT_RISK ∉ segs) /\ (DORMANT ∉ segs))
  /\ (Customer.last_activity c = None ->
      forall s : CustomerSegment, s ∈ segs -> s = HIGH_VALUE \/ s = NEW).
Proof.
  cbv zeta. rewrite !elem_of_segment_customer.
  cbn [RealtimeSegmentation.rule_of].
  unfold RealtimeSegmentation.rule_at_risk, RealtimeSegmentation.rule_dormant,
    RealtimeSegmentation.rule_active.
  split; [| split].
  - destruct (Customer.last_activity c) as [t|]; [| discriminate].
    rewrite !Z.ltb_lt. lia.
  - destruct (Customer.last_activity c) as [t|]; [| discriminate].
    rewrite !Z.ltb_lt. lia.
  - intros Hnone s Hs%elem_of_segment_customer.
    destruct s; cbn [RealtimeSegmentation.rule_of] in Hs; auto;
      unfold RealtimeSegmentation.rule_at_risk, RealtimeSegmentation.rule_dormant,
        RealtimeSegmentation.rule_active in Hs;
      rewrite Hnone in Hs; discriminate.
Qed.

(** ** Further properties of the scores *)

Lemma rnd_proper (rnd : Q -> Q) (x y : Q) :
  rounding rnd -> (x == y)%Q -> (rnd x == rnd y)%Q.
Proof.
  intros Hr Hxy. apply Qle_antisym; apply (rnd_le rnd Hr); rewrite Hxy;
    apply Qle_refl.
Qed.

Lemma rnd_zero (rnd : Q -> Q) (x : Q) :
  rounding rnd -> (x == 0)%Q -> (rnd x == 0)%Q.
Proof.
  intros Hr Hx. rewrite (rnd_proper rnd x 0 Hr Hx). apply (rnd_0 rnd Hr).
Qed.

(** X7: the churn score is exactly 1 from ninety days of inactivity on, and
    exactly 0 for a customer last active less than a day ago. *)
Theorem predict_churn_endpoints (rnd : Q -> Q) (now : datetime) (c : Customer.t)
    (self : PredictiveAnalytics.t) (t : datetime) :
  rounding rnd ->
  is_float rnd 90 ->
  Customer.last_activity c = Some t ->
  let score := (PredictiveAnalytics.predict_churn rnd now c self).1 in
  (90 <= days_since now t -> (score == 1)%Q)
  /\ (days_since now t = 0 -> (score == 0)%Q).
Proof.
  intros Hr H90 Ht. cbn. unfold PredictiveAnalytics.churn_score. rewrite Ht.
  cbv zeta. rewrite py_min_Qmin. unfold float_div, float_of_int. split.
  - intros Hd. apply Q.min_l. apply (rnd_ge_1 rnd _ Hr).
    apply Qle_shift_div_l; [reflexivity |]. rewrite Qmult_1_l.
    apply Qle_trans with (rnd 90%Q).
    + unfold is_float in H90. rewrite H90. apply Qle_refl.
    + apply (rnd_le rnd Hr). change 90%Q with (inject_Z 90).
      now rewrite <- Zle_Qle.
  - intros ->. rewrite Q.min_r.
    + apply (rnd_zero rnd _ Hr).
      rewrite (rnd_zero rnd (inject_Z 0) Hr) by reflexivity. reflexivity.
    + rewrite (rnd_zero rnd _ Hr); [discriminate |].
      rewrite (rnd_zero rnd (inject_Z 0) Hr) by reflexivity. reflexivity.
Qed.

Lemma predict_churn_endpoints_witness :
  let now := t0 + timedelta_of_days 100 in
  rounding exact_rnd
  /\ is_float exact_rnd 90
  /\ ((PredictiveAnalytics.predict_churn exact_rnd now cust0
         PredictiveAnalytics.init).1 == 1)%Q.
Proof.
  cbv zeta.
  assert (H90 : is_float exact_rnd 90) by reflexivity.
  split; [exact exact_rnd_rounding |]. split; [exact H90 |].
  destruct (predict_churn_endpoints exact_rnd (t0 + timedelta_of_days 100) cust0
              PredictiveAnalytics.init (t0 - timedelta_of_days 10)
              exact_rnd_rounding H90 eq_refl) as [Hsat _].
  apply Hsat. vm_compute. discriminate.
Defined.

(** X8: the predicted lifetime value does not decrease when the lifetime
    value or the number of events grows, for a lifetime value that is not
    negative; and it is 0 for a lifetime value of 0. *)
Theorem predict_ltv_monotone (rnd : Q -> Q) (c c' : Customer.t)
    (self self' : PredictiveAnalytics.t) :
  rounding rnd ->
  (0 <= Customer.lifetime_value c)%Q ->
  (Customer.lifetime_value c <= Customer.lifetime_value c')%Q ->
  (length (Customer.events c) <= length (Customer.events c'))%nat ->
  ((PredictiveAnalytics.predict_ltv rnd c self).1
   <= (PredictiveAnalytics.predict_ltv rnd c' self').1)%Q
  /\ ((Customer.lifetime_value c == 0)%Q ->
      ((PredictiveAnalytics.predict_ltv rnd c self).1 == 0)%Q).
Proof.
  intros Hr Hnonneg Hlv Hev. cbn.
  unfold float_mul, float_add, float_div, float_of_int, lit_1_2.
  set (lv := Customer.lifetime_value c) in *.
  set (lv' := Customer.lifetime_value c') in *.
  set (q := rnd (rnd (inject_Z (Z.of_nat (length (Customer.events c)))) / 100)%Q).
  set (q' := rnd (rnd (inject_Z (Z.of_nat (length (Customer.events c')))) / 100)%Q).
  assert (Hq : (0 <= q)%Q).
  { apply (rnd_nonneg rnd _ Hr). apply Qmult_le_0_compat; [| discriminate].
    apply (rnd_nonneg rnd _ Hr). rewrite <- (Zle_Qle 0). lia. }
  assert (Hqq : (q <= q')%Q).
  { apply (rnd_le rnd Hr). apply Qmult_le_compat_r; [| discriminate].
    apply (rnd_le rnd Hr). rewrite <- Zle_Qle. lia. }
  assert (Hm : (1 <= rnd (1 + q))%Q) by (apply (rnd_ge_1 rnd _ Hr); lra).
  assert (Hmm : (rnd (1 + q) <= rnd (1 + q'))%Q) by (apply (rnd_le rnd Hr); lra).
  assert (Hk : (1 <= rnd (12 # 10))%Q)
    by (apply (rnd_ge_1 rnd _ Hr); discriminate).
  split.
  - apply (rnd_le rnd Hr). apply Qmult_le_compat_r; [| lra].
    apply (rnd_le rnd Hr). nra.
  - intros Hzero. apply (rnd_zero rnd _ Hr).
    rewrite (rnd_zero rnd (lv * rnd (1 + q))%Q Hr) by (rewrite Hzero; ring).
    ring.
Qed.

Lemma predict_ltv_monotone_witness :
  let c' :=
    Customer.Build "cust-1" "customer1@example.com" "Customer 1" ∅ [∅; ∅] []
      21000 None t0 in
  rounding exact_rnd
  /\ (0 <= Customer.lifetime_value cust0)%Q
  /\ ((PredictiveAnalytics.predict_ltv exact_rnd cust0 PredictiveAnalytics.init).1
      <= (PredictiveAnalytics.predict_ltv exact_rnd c' PredictiveAnalytics.init).1)%Q.
Proof.
  cbv zeta.
  assert (Hnonneg : (0 <= Customer.lifetime_value cust0)%Q) by discriminate.
  split; [exact exact_rnd_rounding |]. split; [exact Hnonneg |].
  refine (proj1 (predict_ltv_monotone exact_rnd cust0 _ PredictiveAnalytics.init
                   PredictiveAnalytics.init exact_rnd_rounding Hnonneg _ _)).
  - discriminate.
  - cbn. lia.
Defined.

(** X9: a scoring call touches the record of its own customer only; and
    [predict_ltv] leaves every other metric of that record as it was, so that
    a second [predict_ltv] of the same customer changes nothing, as does a
    second [predict_churn] at the same clock reading. *)
Theorem scoring_frame (rnd : Q -> Q) (now : datetime) (c : Customer.t)
    (self : PredictiveAnalytics.t) :
  let churn := PredictiveAnalytics.predict_churn rnd now c self in
  let ltv := PredictiveAnalytics.predict_ltv rnd c self in
  (forall k : string, k <> Customer.id c ->
     PredictiveAnalytics.predictions churn.2 !! k
     = PredictiveAnalytics.predictions self !! k
     /\ PredictiveAnalytics.predictions ltv.2 !! k
        = PredictiveAnalytics.predictions self !! k)
  /\ (exists record : gmap string Q,
        PredictiveAnalytics.predictions ltv.2 !! Customer.id c = Some record
        /\ record !! "predicted_ltv"%string = Some ltv.1
        /\ forall metric : string, metric <> "predicted_ltv"%string ->
             record !! metric
             = default ∅ (PredictiveAnalytics.predictions self !! Customer.id c)
                 !! metric)
  /\ PredictiveAnalytics.predict_ltv rnd c ltv.2 = ltv
  /\ PredictiveAnalytics.predict_churn rnd now c churn.2 = churn.
Proof.
  cbv zeta. unfold PredictiveAnalytics.predict_ltv, PredictiveAnalytics.predict_churn.
  cbn [fst snd PredictiveAnalytics.predictions].
  split; [| split; [| split]].
  - intros k Hk. rewrite !lookup_insert_ne by congruence. split; [reflexivity |].
    destruct (PredictiveAnalytics.predictions self !! Customer.id c);
      [reflexivity |]. apply lookup_insert_ne. congruence.
  - eexists. split; [apply lookup_insert_eq |].
    split; [apply lookup_insert_eq |].
    intros metric Hm. rewrite lookup_insert_ne by congruence.
    destruct (PredictiveAnalytics.predictions self !! Customer.id c) eqn:Hrec.
    + now rewrite Hrec.
    + now rewrite lookup_insert_eq.
  - rewrite !lookup_insert_eq. cbv beta iota delta [default from_option id].
    f_equal. f_equal. now rewrite !insert_insert_eq.
  - f_equal. f_equal. apply insert_insert_eq.
Qed.

(** ** Further properties of journeys and consent *)

Lemma enroll_customer_journeys (customer_id journey_name : string)
    (self : JourneyOrchestrator.t) :
  JourneyOrchestrator.journeys
    (returned_or self
       (JourneyOrchestrator.enroll_customer customer_id journey_name self))
  = JourneyOrchestrator.journeys self.
Proof.
  unfold JourneyOrchestrator.enroll_customer.
  now destruct (JourneyOrchestrator.journeys self !! journey_name).
Qed.

Lemma enroll_customer_defined (customer_id journey_name : string)
    (stages : list (gmap string pyval)) (self : JourneyOrchestrator.t) :
  JourneyOrchestrator.journeys self !! journey_name = Some stages ->
  JourneyOrchestrator.enroll_customer customer_id journey_name self
  = Returned
      (JourneyOrchestrator.Build (JourneyOrchestrator.journeys self)
         (<[customer_id := journey_name]>
            (JourneyOrchestrator.active_journeys self))).
Proof.
  intros Hj. unfold JourneyOrchestrator.enroll_customer. now rewrite Hj.
Qed.

(** X10: once a journey is defined, with whatever stages and an empty list
    included, a customer can be enrolled in it; the definition leaves the
    enrollments and the other templates alone, an enrollment leaves every
    template and the other customers alone, an enrollment in an undefined
    journey returns without a change and without an error, and a customer
    enrolled a second time is in the later journey only. *)
Theorem enroll_customer_after_define (name other : string)
    (stages : list (gmap string pyval)) (customer_id : string)
    (self : JourneyOrchestrator.t) :
  let j := JourneyOrchestrator.define_journey name stages self in
  let j' := returned_or j (JourneyOrchestrator.enroll_customer customer_id name j) in
  let j'' :=
    returned_or j' (JourneyOrchestrator.enroll_customer customer_id other j') in
  JourneyOrchestrator.active_journeys j = JourneyOrchestrator.active_journeys self
  /\ JourneyOrchestrator.journeys j !! name = Some stages
  /\ (forall k : string, k <> name ->
        JourneyOrchestrator.journeys j !! k
        = JourneyOrchestrator.journeys self !! k)
  /\ JourneyOrchestrator.enroll_customer customer_id name j = Returned j'
  /\ JourneyOrchestrator.active_journeys j' !! customer_id = Some name
  /\ JourneyOrchestrator.journeys j' = JourneyOrchestrator.journeys j
  /\ (forall k : string, k <> customer_id ->
        JourneyOrchestrator.active_journeys j' !! k
        = JourneyOrchestrator.active_journeys self !! k)
  /\ JourneyOrchestrator.journeys
       (returned_or self
          (JourneyOrchestrator.enroll_customer customer_id other self))
     = JourneyOrchestrator.journeys self
  /\ (JourneyOrchestrator.journeys self !! other = None ->
      JourneyOrchestrator.enroll_customer customer_id other self = Returned self)
  /\ (is_Some (JourneyOrchestrator.journeys j' !! other) ->
      JourneyOrchestrator.active_journeys j'' !! customer_id = Some other
      /\ JourneyOrchestrator.journeys j'' = JourneyOrchestrator.journeys j'
      /\ forall k : string, k <> customer_id ->
           JourneyOrchestrator.active_journeys j'' !! k
           = JourneyOrchestrator.active_journeys j' !! k).
Proof.
  cbv zeta.
  assert (Hdefined :
    JourneyOrchestrator.journeys
      (JourneyOrchestrator.define_journey name stages self) !! name
    = Some stages) by apply lookup_insert_eq.
  rewrite (enroll_customer_defined customer_id name stages _ Hdefined).
  cbn [returned_or].
  split; [reflexivity |]. split; [exact Hdefined |].
  split; [intros k Hk; apply lookup_insert_ne; congruence |].
  split; [reflexivity |].
  split; [apply lookup_insert_eq |].
  split; [reflexivity |].
  split; [intros k Hk; apply lookup_insert_ne; congruence |].
  split; [apply enroll_customer_journeys |].
  split.
  - intros Hnone. unfold JourneyOrchestrator.enroll_customer. now rewrite Hnone.
  - intros [stages' Hother].
    rewrite (enroll_customer_defined customer_id other stages' _ Hother).
    cbn [returned_or JourneyOrchestrator.journeys
         JourneyOrchestrator.active_journeys].
    split; [apply lookup_insert_eq |]. split; [reflexivity |].
    intros k Hk. apply lookup_insert_ne. congruence.
Qed.

(** X11: consent is recorded whether or not the customer has a profile; the
    record of a purpose holds the last decision and its time, an earlier
    decision on the same purpose leaves no trace, the other purposes of the
    customer and the other customers are as they were, and the deletion log
    is not touched. *)
Theorem record_consent_last_write_wins (now now' : datetime)
    (customer_id purpose : string) (granted granted' : bool)
    (self : PrivacyCompliance.t) :
  let s1 :=
    PrivacyCompliance.record_consent now customer_id purpose granted self in
  (exists record : gmap string PrivacyCompliance.consent,
     PrivacyCompliance.consent_records s1 !! customer_id = Some record
     /\ record !! purpose = Some (PrivacyCompliance.Consent granted now)
     /\ forall p : string, p <> purpose ->
          record !! p
          = default ∅ (PrivacyCompliance.consent_records self !! customer_id) !! p)
  /\ (forall k : string, k <> customer_id ->
        PrivacyCompliance.consent_records s1 !! k
        = PrivacyCompliance.consent_records self !! k)
  /\ PrivacyCompliance.record_consent now' customer_id purpose granted' s1
     = PrivacyCompliance.record_consent now' customer_id purpose granted' self
  /\ PrivacyCompliance.deletion_requests s1
     = PrivacyCompliance.deletion_requests self.
Proof.
  cbv zeta. unfold PrivacyCompliance.record_consent.
  cbn [PrivacyCompliance.consent_records PrivacyCompliance.deletion_requests].
  split; [| split; [| split]].
  - eexists. split; [apply lookup_insert_eq |].
    split; [apply lookup_insert_eq |].
    intros p Hp. rewrite lookup_insert_ne by congruence.
    destruct (PrivacyCompliance.consent_records self !! customer_id) eqn:Hrec.
    + now rewrite Hrec.
    + now rewrite lookup_insert_eq.
  - intros k Hk. rewrite lookup_insert_ne by congruence.
    destruct (PrivacyCompliance.consent_records self !! customer_id);
      [reflexivity |]. apply lookup_insert_ne. congruence.
  - rewrite !lookup_insert_eq. cbv beta iota delta [default from_option id].
    f_equal. rewrite !insert_insert_eq.
    destruct (PrivacyCompliance.consent_records self !! customer_id) eqn:Hrec.
    + now rewrite Hrec.
    + now rewrite lookup_insert_eq, insert_insert_eq.
  - reflexivity.
Qed.

(** ** Sequences of calls *)

(** Projections of the records of the platform, and nothing else. *)
Ltac platform_simpl :=
  cbn [fold_left exec fst snd
       IntelligentCDP.profile_engine IntelligentCDP.segmentation
       IntelligentCDP.predictive IntelligentCDP.journey IntelligentCDP.privacy
       UnifiedProfileEngine.create_profile UnifiedProfileEngine.profiles
       UnifiedProfileEngine.identity_graph
       RealtimeSegmentation.segments PredictiveAnalytics.predictions
       JourneyOrchestrator.journeys JourneyOrchestrator.active_journeys
       PrivacyCompliance.consent_records PrivacyCompliance.deletion_requests] in *.

Lemma run_app (rnd : Q -> Q) (cs cs' : list call) (cdp : IntelligentCDP.t) :
  run rnd (cs ++ cs') cdp = run rnd cs' (run rnd cs cdp).
Proof. apply fold_left_app. Qed.

(** A property that every call preserves holds after any sequence of calls. *)
Lemma run_invariant (rnd : Q -> Q) (P : IntelligentCDP.t -> Prop) :
  (forall (cdp : IntelligentCDP.t) (c : call), P cdp -> P (exec rnd cdp c)) ->
  forall (cs : list call) (cdp : IntelligentCDP.t), P cdp -> P (run rnd cs cdp).
Proof.
  intros Hstep cs. induction cs as [| c cs IH]; intros cdp Hcdp; [exact Hcdp |].
  cbn. apply IH, Hstep, Hcdp.
Qed.

Lemma segment_customer_id (clock : CustomerSegment -> datetime) (c : Customer.t)
    (self : RealtimeSegmentation.t) :
  Customer.id (RealtimeSegmentation.segment_customer clock c self).1
  = Customer.id c.
Proof. now rewrite segment_customer_customer. Qed.

(** X12: erasure does not bar a customer from coming back, and creation does
    not shield one from erasure: a profile created after its id was erased is
    shown by [get_360_view] again, and a profile erased right after it was
    created leaves the store as the erasure alone would, with the deletion on
    the log. *)
Theorem create_profile_and_deletion (rnd : Q -> Q) (now : datetime)
    (c : Customer.t) (cdp : IntelligentCDP.t) :
  let back :=
    run rnd [ProcessDeletionRequest now (Customer.id c); CreateProfile c] cdp in
  let gone :=
    run rnd [CreateProfile c; ProcessDeletionRequest now (Customer.id c)] cdp in
  UnifiedProfileEngine.profiles (IntelligentCDP.profile_engine back)
    !! Customer.id c = Some c
  /\ UnifiedProfileEngine.get_360_view (Customer.id c)
       (IntelligentCDP.profile_engine back) <> EmptyView
  /\ UnifiedProfileEngine.profiles (IntelligentCDP.profile_engine gone)
     = delete (Customer.id c)
         (UnifiedProfileEngine.profiles (IntelligentCDP.profile_engine cdp))
  /\ PrivacyCompliance.deletion_requests (IntelligentCDP.privacy gone)
     = PrivacyCompliance.deletion_requests (IntelligentCDP.privacy cdp)
         ++ [PrivacyCompliance.Deletion (Customer.id c) now]
  /\ UnifiedProfileEngine.get_360_view (Customer.id c)
       (IntelligentCDP.profile_engine gone) = EmptyView.
Proof.
  cbv zeta. unfold run. cbn [fold_left exec].
  assert (Hin :
    UnifiedProfileEngine.profiles
      (IntelligentCDP.profile_engine
         (IntelligentCDP.Build
            (UnifiedProfileEngine.create_profile c
               (IntelligentCDP.profile_engine cdp)).2
            (IntelligentCDP.segmentation cdp) (IntelligentCDP.predictive cdp)
            (IntelligentCDP.journey cdp) (IntelligentCDP.privacy cdp)))
      !! Customer.id c = Some c) by apply lookup_insert_eq.
  rewrite (platform_deletion_found _ _ _ _ Hin).
  unfold UnifiedProfileEngine.get_360_view. cbn.
  rewrite !lookup_insert_eq, lookup_delete_eq.
  repeat split; try discriminate. apply delete_insert_eq.
Qed.

(** X13: when the customer object that was handed to [create_profile] is then
    handed to [segment_customer], the store holds that very object, and
    [get_360_view] of its id shows the segments of the recomputation, the
    values of the segments whose rule holds, while the index lists the id
    under each of them. *)
Theorem get_360_view_after_segment_customer (rnd : Q -> Q)
    (clock : CustomerSegment -> datetime) (c : Customer.t)
    (cdp : IntelligentCDP.t) :
  let cdp' := run rnd [CreateProfile c; SegmentStored clock (Customer.id c)] cdp in
  let segs :=
    List.filter (fun s => RealtimeSegmentation.rule_of s (clock s) c)
      [HIGH_VALUE; AT_RISK; DORMANT; NEW; ACTIVE] in
  UnifiedProfileEngine.get_360_view (Customer.id c)
    (IntelligentCDP.profile_engine cdp')
  = View (Customer.id c) (Customer.email c) (Customer.name c)
      (Customer.lifetime_value c) (map value segs)
      (length (Customer.events c)) (Customer.last_activity c)
      (Customer.attributes c)
  /\ forall s : CustomerSegment,
       s ∈ segs ->
       Customer.id c
       ∈ RealtimeSegmentation.segments (IntelligentCDP.segmentation cdp') s.
Proof.
  cbv zeta. unfold run. platform_simpl.
  rewrite lookup_insert_eq. cbv zeta. platform_simpl. split.
  - unfold UnifiedProfileEngine.get_360_view. platform_simpl.
    rewrite lookup_insert_eq, segment_customer_customer. reflexivity.
  - intros s Hs. rewrite segment_customer_lists.
    apply list_elem_of_In, filter_In in Hs. destruct Hs as [_ ->]. cbn [andb].
    destruct (bool_decide _) eqn:Hin; cbn [negb].
    + now apply bool_decide_eq_true in Hin.
    + apply elem_of_app. right. apply list_elem_of_here.
Qed.

(** ** Invariants of the platform *)

Lemma exec_profiles_keyed_by_id (rnd : Q -> Q) (cdp : IntelligentCDP.t)
    (c : call) :
  profiles_keyed_by_id cdp -> profiles_keyed_by_id (exec rnd cdp c).
Proof.
  unfold profiles_keyed_by_id. intros Hinv.
  destruct c; try exact Hinv; intros k c'.
  - platform_simpl. rewrite lookup_insert.
    destruct (decide (Customer.id customer = k)) as [<- | _]; [| apply Hinv].
    now intros [= <-].
  - cbn [exec].
    destruct (UnifiedProfileEngine.profiles (IntelligentCDP.profile_engine cdp)
                !! customer_id) as [c0|] eqn:Hc0; [| apply Hinv].
    cbv zeta. platform_simpl. rewrite lookup_insert.
    destruct (decide (customer_id = k)) as [<- | _]; [| apply Hinv].
    intros [= <-]. rewrite segment_customer_id. now apply Hinv.
  - cbn [exec]. unfold IntelligentCDP.process_deletion_request,
      PrivacyCompliance.process_deletion_request.
    destruct (UnifiedProfileEngine.profiles (IntelligentCDP.profile_engine cdp)
                !! customer_id); [| apply Hinv].
    platform_simpl. intros [_ Hk]%lookup_delete_Some. now apply Hinv.
Qed.

(** X14: after any sequence of calls on a new platform every profile is
    stored under the id it carries, so that [get_360_view] of an id is either
    the empty dict or a view whose ['id'] is the id asked for. *)
Theorem profiles_stay_keyed_by_id (rnd : Q -> Q) (cs : list call) (k : string) :
  let cdp := run rnd cs IntelligentCDP.init in
  profiles_keyed_by_id cdp
  /\ match UnifiedProfileEngine.get_360_view k (IntelligentCDP.profile_engine cdp)
     with
     | EmptyView => True
     | View id' _ _ _ _ _ _ _ => id' = k
     end.
Proof.
  cbv zeta.
  assert (Hinv : profiles_keyed_by_id (run rnd cs IntelligentCDP.init)).
  { apply run_invariant; [apply exec_profiles_keyed_by_id |].
    intros k' c' Hc'. vm_compute in Hc'. discriminate. }
  split; [exact Hinv |]. unfold UnifiedProfileEngine.get_360_view.
  destruct (UnifiedProfileEngine.profiles _ !! k) as [c|] eqn:Hc; [| exact I].
  now apply Hinv.
Qed.

Lemma exec_keys_hash_an_alias (rnd : Q -> Q) (cdp : IntelligentCDP.t)
    (c : call) :
  keys_hash_an_alias cdp -> keys_hash_an_alias (exec rnd cdp c).
Proof.
  unfold keys_hash_an_alias. intros Hinv.
  destruct c; try exact Hinv; intros key aliases.
  - cbn [exec IntelligentCDP.profile_engine]. rewrite merge_identities_graph.
    cbn [UnifiedProfileEngine.identity_graph]. rewrite lookup_insert.
    destruct (decide (MD5.hexdigest email = key)) as [<- | _]; [| apply Hinv].
    intros [= <-]. exists email. split; [| reflexivity].
    apply elem_of_union_r, elem_of_union_l, elem_of_singleton. reflexivity.
  - cbn [exec].
    destruct (UnifiedProfileEngine.profiles (IntelligentCDP.profile_engine cdp)
                !! customer_id); apply Hinv.
  - cbn [exec]. unfold IntelligentCDP.process_deletion_request,
      PrivacyCompliance.process_deletion_request.
    destruct (UnifiedProfileEngine.profiles (IntelligentCDP.profile_engine cdp)
                !! customer_id); apply Hinv.
Qed.

(** X15: after any sequence of calls on a new platform every key of the
    identity graph is the MD5 digest of one of the aliases grouped under it;
    in particular no key has an empty alias set. *)
Theorem keys_stay_hashes_of_aliases (rnd : Q -> Q) (cs : list call) :
  let cdp := run rnd cs IntelligentCDP.init in
  keys_hash_an_alias cdp
  /\ forall key : string,
       UnifiedProfileEngine.identity_graph (IntelligentCDP.profile_engine cdp)
         !! key <> Some ∅.
Proof.
  cbv zeta.
  assert (Hinv : keys_hash_an_alias (run rnd cs IntelligentCDP.init)).
  { apply run_invariant; [apply exec_keys_hash_an_alias |].
    intros key aliases Hkey. vm_compute in Hkey. discriminate. }
  split; [exact Hinv |]. intros key Hkey.
  destruct (Hinv key ∅ Hkey) as (email & Hin & _).
  now apply not_elem_of_empty in Hin.
Qed.

Lemma segment_customer_NoDup (clock : CustomerSegment -> datetime)
    (c : Customer.t) (self : RealtimeSegmentation.t) (s : CustomerSegment) :
  NoDup (RealtimeSegmentation.segments self s) ->
  NoDup (RealtimeSegmentation.segments
           (RealtimeSegmentation.segment_customer clock c self).2 s).
Proof.
  rewrite segment_customer_lists.
  apply (append_once_spec (RealtimeSegmentation.rule_of s (clock s) c)
           (Customer.id c) (RealtimeSegmentation.segments self s)).
Qed.

Lemma exec_index_without_duplicates (rnd : Q -> Q) (cdp : IntelligentCDP.t)
    (c : call) :
  index_without_duplicates cdp -> index_without_duplicates (exec rnd cdp c).
Proof.
  unfold index_without_duplicates. intros Hinv.
  destruct c; try exact Hinv; intros s.
  - cbn [exec].
    destruct (UnifiedProfileEngine.profiles (IntelligentCDP.profile_engine cdp)
                !! customer_id); [| apply Hinv].
    cbv zeta. platform_simpl. apply segment_customer_NoDup, Hinv.
  - platform_simpl. apply segment_customer_NoDup, Hinv.
  - cbn [exec]. unfold IntelligentCDP.process_deletion_request,
      PrivacyCompliance.process_deletion_request.
    destruct (UnifiedProfileEngine.profiles (IntelligentCDP.profile_engine cdp)
                !! customer_id); apply Hinv.
Qed.

(** X16: after any sequence of calls on a new platform no list of the segment
    index holds an id twice, however often and in whatever order customers
    were segmented. *)
Theorem index_stays_without_duplicates (rnd : Q -> Q) (cs : list call) :
  index_without_duplicates (run rnd cs IntelligentCDP.init).
Proof.
  apply run_invariant; [apply exec_index_without_duplicates |].
  intros s. cbn. apply NoDup_nil_2.
Qed.

Lemma exec_records_hold_metrics (rnd : Q -> Q) (cdp : IntelligentCDP.t)
    (c : call) :
  records_hold_metrics cdp -> records_hold_metrics (exec rnd cdp c).
Proof.
  unfold records_hold_metrics. intros Hinv.
  destruct c; try exact Hinv; intros k record.
  - cbn [exec].
    destruct (UnifiedProfileEngine.profiles (IntelligentCDP.profile_engine cdp)
                !! customer_id); apply Hinv.
  - platform_simpl. unfold PredictiveAnalytics.predict_churn. platform_simpl.
    rewrite lookup_insert.
    destruct (decide (Customer.id customer = k)) as [_ | _]; [| apply Hinv].
    intros [= <-]. split; [apply insert_non_empty |].
    intros metric [x Hx]. apply lookup_singleton_Some in Hx. now left.
  - platform_simpl. unfold PredictiveAnalytics.predict_ltv. platform_simpl.
    rewrite lookup_insert.
    destruct (decide (Customer.id customer = k)) as [_ | Hne].
    + intros [= <-]. split; [apply insert_non_empty |].
      intros metric Hm. apply lookup_insert_is_Some in Hm.
      destruct Hm as [<- | [_ Hm]]; [now right |].
      destruct (PredictiveAnalytics.predictions (IntelligentCDP.predictive cdp)
                  !! Customer.id customer) as [record0|] eqn:Hrec.
      * rewrite Hrec in Hm. now apply (Hinv _ _ Hrec).
      * rewrite lookup_insert_eq in Hm. cbn in Hm.
        rewrite lookup_empty in Hm. now destruct Hm.
    + destruct (PredictiveAnalytics.predictions (IntelligentCDP.predictive cdp)
                  !! Customer.id customer); [apply Hinv |].
      rewrite lookup_insert_ne by exact Hne. apply Hinv.
  - cbn [exec]. unfold IntelligentCDP.process_deletion_request,
      PrivacyCompliance.process_deletion_request.
    destruct (UnifiedProfileEngine.profiles (IntelligentCDP.profile_engine cdp)
                !! customer_id); apply Hinv.
Qed.

(** X17: after any sequence of calls on a new platform every prediction
    record holds at least one metric, and no entry other than ['churn_risk']
    and ['predicted_ltv']. *)
Theorem records_stay_metrics (rnd : Q -> Q) (cs : list call) :
  records_hold_metrics (run rnd cs IntelligentCDP.init).
Proof.
  apply run_invariant; [apply exec_records_hold_metrics |].
  intros k record Hk. vm_compute in Hk. discriminate.
Qed.

Lemma advance_journey_unchanged (customer_id : string) (stage : Z)
    (self : JourneyOrchestrator.t) :
  JourneyOrchestrator.advance_journey customer_id stage self = Returned self.
Proof.
  unfold JourneyOrchestrator.advance_journey.
  now destruct (JourneyOrchestrator.active_journeys self !! customer_id).
Qed.

Lemma exec_enrollments_defined (rnd : Q -> Q) (cdp : IntelligentCDP.t)
    (c : call) :
  enrollments_defined cdp -> enrollments_defined (exec rnd cdp c).
Proof.
  unfold enrollments_defined. intros Hinv.
  destruct c; try exact Hinv; intros k n.
  - cbn [exec].
    destruct (UnifiedProfileEngine.profiles (IntelligentCDP.profile_engine cdp)
                !! customer_id); apply Hinv.
  - platform_simpl. unfold JourneyOrchestrator.define_journey. platform_simpl.
    intros Hk. apply lookup_insert_is_Some.
    destruct (decide (name = n)); [now left | right].
    split; [assumption |]. now apply (Hinv k).
  - platform_simpl. unfold JourneyOrchestrator.enroll_customer.
    destruct (JourneyOrchestrator.journeys (IntelligentCDP.journey cdp)
                !! journey_name) as [stages|] eqn:Hj;
      cbn [returned_or]; platform_simpl; [| apply Hinv].
    rewrite lookup_insert.
    destruct (decide (customer_id = k)) as [_ | _]; [| apply Hinv].
    intros [= <-]. now rewrite Hj.
  - platform_simpl. rewrite advance_journey_unchanged. cbn [returned_or].
    apply Hinv.
  - cbn [exec]. unfold IntelligentCDP.process_deletion_request,
      PrivacyCompliance.process_deletion_request.
    destruct (UnifiedProfileEngine.profiles (IntelligentCDP.profile_engine cdp)
                !! customer_id); apply Hinv.
Qed.

(** X18: after any sequence of calls on a new platform every enrollment names
    a journey that is defined: a journey is never undefined, and nobody is
    enrolled in a journey that is not there. *)
Theorem enrollments_stay_defined (rnd : Q -> Q) (cs : list call) :
  enrollments_defined (run rnd cs IntelligentCDP.init).
Proof.
  apply run_invariant; [apply exec_enrollments_defined |].
  intros k n Hk. vm_compute in Hk. discriminate.
Qed.

Lemma exec_deletion_requests (rnd : Q -> Q) (cdp : IntelligentCDP.t) (c : call) :
  exists added : list PrivacyCompliance.deletion,
    PrivacyCompliance.deletion_requests (IntelligentCDP.privacy (exec rnd cdp c))
    = PrivacyCompliance.deletion_requests (IntelligentCDP.privacy cdp) ++ added
    /\ Forall (fun d =>
                 c = ProcessDeletionRequest (PrivacyCompliance.processed_at d)
                       (PrivacyCompliance.customer_id d)) added
    /\ (length added <= 1)%nat.
Proof.
  destruct c;
    try (exists []; split; [now rewrite app_nil_r | split; [constructor | cbn; lia]]).
  - exists []. split; [| split; [constructor | cbn; lia]].
    rewrite app_nil_r. cbn [exec].
    now destruct (UnifiedProfileEngine.profiles
                    (IntelligentCDP.profile_engine cdp) !! customer_id).
  - cbn [exec]. unfold IntelligentCDP.process_deletion_request,
      PrivacyCompliance.process_deletion_request.
    destruct (UnifiedProfileEngine.profiles (IntelligentCDP.profile_engine cdp)
                !! customer_id).
    + eexists. split; [reflexivity |]. split; [now repeat constructor | cbn; lia].
    + exists []. split; [now rewrite app_nil_r | split; [constructor | cbn; lia]].
Qed.

(** X19: the deletion log is append-only: whatever calls are made, the
    records that were on the log stay there, in their order, and every record
    that joins them carries the id and the time of a deletion request that was
    among the calls. *)
Theorem deletion_log_append_only (rnd : Q -> Q) (cs : list call)
    (cdp : IntelligentCDP.t) :
  exists added : list PrivacyCompliance.deletion,
    PrivacyCompliance.deletion_requests (IntelligentCDP.privacy (run rnd cs cdp))
    = PrivacyCompliance.deletion_requests (IntelligentCDP.privacy cdp) ++ added
    /\ Forall (fun d =>
                 ProcessDeletionRequest (PrivacyCompliance.processed_at d)
                   (PrivacyCompliance.customer_id d) ∈ cs) added
    /\ (length added <= length cs)%nat.
Proof.
  revert cdp. induction cs as [| c cs IH]; intros cdp.
  - exists []. cbn. rewrite app_nil_r. repeat split; constructor.
  - change (run rnd (c :: cs) cdp) with (run rnd cs (exec rnd cdp c)).
    destruct (exec_deletion_requests rnd cdp c)
      as (added0 & Hlog0 & Hfrom0 & Hlen0).
    destruct (IH (exec rnd cdp c)) as (added & Hlog & Hfrom & Hlen).
    exists (added0 ++ added). split; [| split].
    + rewrite Hlog, Hlog0. now rewrite app_assoc.
    + apply Forall_app. split.
      * eapply List.Forall_impl; [| exact Hfrom0].
        intros d <-. apply list_elem_of_here.
      * eapply List.Forall_impl; [| exact Hfrom].
        intros d Hd. now apply list_elem_of_further.
    + rewrite length_app. cbn [length]. lia.
Qed.

(** ** The demo *)

Lemma days_offset (delta k : Z) :
  0 <= delta < microseconds_per_day ->
  days (delta + timedelta_of_days k) = k.
Proof.
  intros Hdelta. unfold days, timedelta_of_days. symmetry.
  apply (Z.div_unique _ _ k delta); [left; exact Hdelta |].
  unfold microseconds_per_day. lia.
Qed.

Section DemoClock.

Variable clock : nat -> datetime.
Hypothesis clock_mono : forall m n : nat, (m <= n)%nat -> clock m <= clock n.
Hypothesis clock_span : clock 700 - clock 0 < microseconds_per_day.

Lemma clock_within_a_day (m n : nat) :
  (m <= n <= 700)%nat -> 0 <= clock n - clock m < microseconds_per_day.
Proof using clock_mono clock_span.
  intros [Hmn Hn].
  pose proof (clock_mono m n Hmn). pose proof (clock_mono 0 m ltac:(lia)).
  pose proof (clock_mono n 700 Hn). lia.
Qed.

(** In a demo that takes less than a day the rules depend on the number of
    the customer alone. *)
Lemma demo_rule_of (i : nat) (s : CustomerSegment) :
  (i < 100)%nat ->
  RealtimeSegmentation.rule_of s (demo_clock clock i s) (demo_customer clock i)
  = demo_rule s i.
Proof using clock_mono clock_span.
  intros Hi.
  assert (Hdays : forall k : nat, (2 <= k <= 5)%nat ->
    days_since (clock (7 * i + k))
      (clock (7 * i) - timedelta_of_days (Z.of_nat i mod 60))
    = Z.of_nat (i mod 60)).
  { intros k Hk. unfold days_since.
    replace (clock (7 * i + k)
             - (clock (7 * i) - timedelta_of_days (Z.of_nat i mod 60)))
      with (clock (7 * i + k) - clock (7 * i)
            + timedelta_of_days (Z.of_nat i mod 60)) by lia.
    rewrite days_offset by (apply clock_within_a_day; lia).
    now rewrite Nat2Z.inj_mod. }
  destruct s; cbn [RealtimeSegmentation.rule_of demo_rule demo_clock].
  - unfold RealtimeSegmentation.rule_high_value. cbn [Customer.lifetime_value demo_customer].
    apply eq_true_iff_eq. rewrite float_lt_iff, Nat.ltb_lt.
    change 10000%Q with (inject_Z 10000). rewrite <- Zlt_Qlt. lia.
  - unfold RealtimeSegmentation.rule_at_risk. cbn [Customer.last_activity demo_customer].
    rewrite (Hdays 2%nat) by lia.
    apply eq_true_iff_eq. rewrite Z.ltb_lt, Nat.ltb_lt. lia.
  - unfold RealtimeSegmentation.rule_active. cbn [Customer.last_activity demo_customer].
    rewrite (Hdays 5%nat) by lia.
    apply eq_true_iff_eq. rewrite Z.ltb_lt, Nat.ltb_lt. lia.
  - unfold RealtimeSegmentation.rule_dormant. cbn [Customer.last_activity demo_customer].
    rewrite (Hdays 3%nat) by lia.
    apply Z.ltb_ge. pose proof (Nat.mod_upper_bound i 60). lia.
  - unfold RealtimeSegmentation.rule_new. cbn [Customer.created_at demo_customer].
    apply Z.ltb_lt. unfold days_since.
    replace (clock (7 * i + 4) - clock (7 * i + 1))
      with (clock (7 * i + 4) - clock (7 * i + 1) + timedelta_of_days 0)
      by (unfold timedelta_of_days; lia).
    rewrite days_offset by (apply clock_within_a_day; lia). lia.
Qed.

End DemoClock.

Lemma fold_left_ext_in {A B : Type} (f g : A -> B -> A) (l : list B) (a : A) :
  (forall (x : A) (y : B), In y l -> f x y = g x y) ->
  fold_left f l a = fold_left g l a.
Proof.
  revert a. induction l as [| y l IH]; intros a Hfg; [reflexivity |].
  cbn. rewrite (Hfg a y) by now left.
  apply IH. intros x y' Hy'. apply Hfg. now right.
Qed.

(** A list of the index through the iterations of the loop. *)
Lemma demo_loop_segments (rnd : Q -> Q) (clock : nat -> datetime)
    (s : CustomerSegment) (l : list nat) :
  (forall i : nat, In i l ->
     RealtimeSegmentation.rule_of s (demo_clock clock i s) (demo_customer clock i)
     = demo_rule s i) ->
  forall cdp : IntelligentCDP.t,
    RealtimeSegmentation.segments
      (IntelligentCDP.segmentation (fold_left (demo_step rnd clock) l cdp)) s
    = fold_left (demo_list_step s) l
        (RealtimeSegmentation.segments (IntelligentCDP.segmentation cdp) s).
Proof.
  induction l as [| i l IH]; intros Hrule cdp; [reflexivity |].
  cbn [fold_left]. rewrite IH by (intros j Hj; apply Hrule; now right).
  f_equal. unfold demo_step. cbv zeta. platform_simpl.
  rewrite segment_customer_lists, Hrule by now left. reflexivity.
Qed.

Lemma demo_loop_frame (rnd : Q -> Q) (clock : nat -> datetime) (l : list nat)
    (cdp : IntelligentCDP.t) :
  let cdp' := fold_left (demo_step rnd clock) l cdp in
  IntelligentCDP.journey cdp' = IntelligentCDP.journey cdp
  /\ IntelligentCDP.privacy cdp' = IntelligentCDP.privacy cdp
  /\ dom (UnifiedProfileEngine.profiles (IntelligentCDP.profile_engine cdp'))
     = dom (UnifiedProfileEngine.profiles (IntelligentCDP.profile_engine cdp))
       ∪ list_to_set (map (fun i : nat => "cust-" +:+ pretty i) l)
  /\ dom (PredictiveAnalytics.predictions (IntelligentCDP.predictive cdp'))
     = dom (PredictiveAnalytics.predictions (IntelligentCDP.predictive cdp))
       ∪ list_to_set (map (fun i : nat => "cust-" +:+ pretty i) l).
Proof.
  cbv zeta. revert cdp. induction l as [| i l IH]; intros cdp.
  - cbn. now rewrite !(right_id_L ∅ (∪)).
  - cbn [fold_left]. destruct (IH (demo_step rnd clock cdp i))
      as (Hj & Hp & Hprof & Hpred).
    rewrite Hj, Hp, Hprof, Hpred.
    split; [reflexivity |]. split; [reflexivity |].
    unfold demo_step. cbv zeta. platform_simpl.
    unfold PredictiveAnalytics.predict_ltv, PredictiveAnalytics.predict_churn.
    platform_simpl. rewrite lookup_insert_eq, segment_customer_id.
    rewrite !dom_insert_L. cbn [Customer.id demo_customer map list_to_set].
    split.
    + rewrite (assoc_L (∪) {[_]} {[_]}), (idemp_L (∪)).
      rewrite (comm_L (∪) {[_]} (dom _)), <- !(assoc_L (∪)). reflexivity.
    + rewrite (assoc_L (∪) {[_]} {[_]}), (idemp_L (∪)).
      rewrite (comm_L (∪) {[_]} (dom _)), <- !(assoc_L (∪)). reflexivity.
Qed.

Lemma demo_loop_both_metrics (rnd : Q -> Q) (clock : nat -> datetime)
    (l : list nat) (cdp : IntelligentCDP.t) :
  map_Forall (fun (_ : string) (record : gmap string Q) =>
                is_Some (record !! "churn_risk"%string)
                /\ is_Some (record !! "predicted_ltv"%string))
    (PredictiveAnalytics.predictions (IntelligentCDP.predictive cdp)) ->
  map_Forall (fun (_ : string) (record : gmap string Q) =>
                is_Some (record !! "churn_risk"%string)
                /\ is_Some (record !! "predicted_ltv"%string))
    (PredictiveAnalytics.predictions
       (IntelligentCDP.predictive (fold_left (demo_step rnd clock) l cdp))).
Proof.
  revert cdp. induction l as [| i l IH]; intros cdp Hall; [exact Hall |].
  cbn [fold_left]. apply IH. unfold demo_step. cbv zeta. platform_simpl.
  unfold PredictiveAnalytics.predict_ltv, PredictiveAnalytics.predict_churn.
  platform_simpl. rewrite !lookup_insert_eq.
  cbv beta iota delta [default from_option id].
  rewrite insert_insert_eq. apply map_Forall_insert_2; [| exact Hall].
  split; eexists.
  - rewrite lookup_insert_ne by discriminate. apply lookup_singleton_eq.
  - apply lookup_insert_eq.
Qed.

Lemma demo_lists_lengths :
  length (fold_left (demo_list_step HIGH_VALUE) (seq 0 100) []) = 9%nat
  /\ length (fold_left (demo_list_step AT_RISK) (seq 0 100) []) = 38%nat
  /\ length (fold_left (demo_list_step ACTIVE) (seq 0 100) []) = 14%nat
  /\ length (fold_left (demo_list_step DORMANT) (seq 0 100) []) = 0%nat
  /\ length (fold_left (demo_list_step NEW) (seq 0 100) []) = 100%nat.
Proof. repeat split; vm_compute; reflexivity. Qed.

Lemma demo_ids_size :
  size (list_to_set (map (fun i : nat => "cust-" +:+ pretty i) (seq 0 100))
          : gset string) = 100%nat.
Proof. vm_compute. reflexivity. Qed.

Lemma record_consent_first (now : datetime) (customer_id purpose : string)
    (granted : bool) :
  size (PrivacyCompliance.consent_records
          (PrivacyCompliance.record_consent now customer_id purpose granted
             PrivacyCompliance.init)) = 1%nat.
Proof.
  unfold PrivacyCompliance.record_consent, PrivacyCompliance.init.
  cbn [PrivacyCompliance.consent_records]. rewrite lookup_empty.
  rewrite lookup_insert_eq, insert_insert_eq, insert_empty.
  apply map_size_singleton.
Qed.

(** X20: a run of [demo] on a new platform that takes less than a day, on a
    clock that does not go backwards, reports 100 customers, 9 of high
    value, 38 at risk, 14 active, none dormant, 100 new, 100 predictions and
    one consent record; every prediction record holds both metrics, nobody
    is enrolled in the journey it defines, and nothing is deleted. *)
Theorem demo_report_within_a_day (rnd : Q -> Q) (clock : nat -> datetime) :
  (forall m n : nat, (m <= n)%nat -> clock m <= clock n) ->
  clock 700%nat - clock 0%nat < microseconds_per_day ->
  let cdp := demo rnd clock IntelligentCDP.init in
  demo_report cdp = [100; 9; 38; 14; 0; 100; 100; 1]%nat
  /\ map_Forall (fun (_ : string) (record : gmap string Q) =>
                   is_Some (record !! "churn_risk"%string)
                   /\ is_Some (record !! "predicted_ltv"%string))
       (PredictiveAnalytics.predictions (IntelligentCDP.predictive cdp))
  /\ JourneyOrchestrator.active_journeys (IntelligentCDP.journey cdp) = ∅
  /\ JourneyOrchestrator.journeys (IntelligentCDP.journey cdp)
       !! "onboarding"%string = Some onboarding
  /\ PrivacyCompliance.deletion_requests (IntelligentCDP.privacy cdp) = [].
Proof.
  intros Hmono Hspan. cbv zeta. unfold demo. cbv zeta.
  destruct (demo_loop_frame rnd clock (seq 0 100) IntelligentCDP.init)
    as (Hj & Hp & Hprof & Hpred).
  assert (Hlist : forall s : CustomerSegment,
    RealtimeSegmentation.segments
      (IntelligentCDP.segmentation
         (fold_left (demo_step rnd clock) (seq 0 100) IntelligentCDP.init)) s
    = fold_left (demo_list_step s) (seq 0 100) []).
  { intros s. rewrite demo_loop_segments; [reflexivity |].
    intros i Hi%in_seq. apply demo_rule_of; [exact Hmono | exact Hspan | lia]. }
  pose proof (demo_loop_both_metrics rnd clock (seq 0 100) IntelligentCDP.init
                (map_Forall_empty _)) as Hboth.
  set (loop := fold_left (demo_step rnd clock) (seq 0 100) IntelligentCDP.init)
    in *.
  clearbody loop.
  cbn [IntelligentCDP.profile_engine IntelligentCDP.segmentation
       IntelligentCDP.predictive IntelligentCDP.journey IntelligentCDP.privacy].
  split; [| split; [exact Hboth | split; [| split]]].
  - unfold demo_report.
    cbn [IntelligentCDP.profile_engine IntelligentCDP.segmentation
         IntelligentCDP.predictive IntelligentCDP.privacy map app].
    rewrite !Hlist, Hp, <- 2!size_dom, Hprof, Hpred.
    change (dom (UnifiedProfileEngine.profiles
                   (IntelligentCDP.profile_engine IntelligentCDP.init)))
      with (∅ : gset string).
    change (dom (PredictiveAnalytics.predictions
                   (IntelligentCDP.predictive IntelligentCDP.init)))
      with (∅ : gset string).
    rewrite !(left_id_L ∅ (∪)), demo_ids_size.
    destruct demo_lists_lengths as (-> & -> & -> & -> & ->).
    rewrite record_consent_first. reflexivity.
  - now rewrite Hj.
  - rewrite Hj. apply lookup_insert_eq.
  - now rewrite Hp.
Qed.

Lemma demo_report_within_a_day_witness :
  (forall m n : nat, (m <= n)%nat -> t0 <= t0)
  /\ t0 - t0 < microseconds_per_day
  /\ demo_report (demo exact_rnd (fun _ => t0) IntelligentCDP.init)
     = [100; 9; 38; 14; 0; 100; 100; 1]%nat.
Proof.
  assert (Hmono : forall m n : nat, (m <= n)%nat -> t0 <= t0) by (intros; lia).
  assert (Hspan : t0 - t0 < microseconds_per_day) by reflexivity.
  split; [exact Hmono |]. split; [exact Hspan |].
  destruct (demo_report_within_a_day exact_rnd (fun _ => t0) Hmono Hspan)
    as [Hreport _].
  exact Hreport.
Defined.
